(** * now scale: a shallow embedding of src/providers/sh/commands/scale.js

    The command is an async function that talks to its collaborators (the
    output channel, the API client, the imported helpers) in a fixed order
    and returns an exit code.  It is embedded as a finite program tree
    over the calls it makes; a run of the tree against a remote world
    gives the trace of calls and the way the promise settles. *)

From stdpp Require Import gmap strings list fin_maps.

Local Open Scope string_scope.
Local Open Scope Z_scope.

(** ** Data model *)

(** A bound of a scale rule: a number of instances or the literal 'auto'. *)
Inductive Bound : Type :=
| Count (n : N)
| Auto.

(** The object literal [{ min, max }] of line 165. *)
Record ScaleRange : Type := { range_min : Bound; range_max : Bound }.

(** [DeploymentScaleArgs]: a JS object keyed by datacenter. *)
Abbreviation DeploymentScaleArgs := (gmap string ScaleRange).

(** The fields of a deployment that the command reads. *)
Record Deployment : Type := {
  uid : string;
  url : string;
  type : string;
  state : string;
  scale : DeploymentScaleArgs
}.

#[global] Instance Bound_eq_dec : EqDecision Bound.
Proof. solve_decision. Defined.

#[global] Instance ScaleRange_eq_dec : EqDecision ScaleRange.
Proof. solve_decision. Defined.

#[global] Instance Deployment_eq_dec : EqDecision Deployment.
Proof. solve_decision. Defined.

(** [CLIScaleOptions]: what [getArgs] gives back.  [argv_] is the field
    [argv._], the positional arguments, the subcommand first. *)
Record CLIScaleOptions : Type := {
  argv_ : list string;
  opt_help : bool;
  opt_debug : bool;
  opt_no_verify : bool;
  opt_verify_timeout : option N
}.

Record Credential : Type := { provider : string; token : string }.

Record ShConfig : Type := { currentTeam : option string }.

(** [CLIContext]: the part of [ctx] that [main] destructures. *)
Record CLIContext : Type := {
  argv : list string;
  credentials : list Credential;
  sh : ShConfig;
  apiUrl : string
}.

(** ** Results of the collaborators

    Each helper returns a value or an instance of one of the error classes
    that [main] tells apart with [instanceof]. *)

Inductive DCsResult : Type :=
| DCs (dcs : list string)
| InvalidAllForScale
| InvalidRegionOrDCForScale (regionOrDC : string).

Inductive MinResult : Type :=
| Min (min : Bound)
| InvalidMinForScale (value : string).

(** [getMaxFromArgs] can also come back with an [InvalidMinForScale]
    (line 125); the constructor is primed to keep the two apart. *)
Inductive MaxResult : Type :=
| Max (max : Bound)
| InvalidMinForScale' (value : string)
| InvalidArgsForMinMaxScale (min : Bound)
| InvalidMaxForScale (value : string).

Inductive FetchResult : Type :=
| Fetched (deployment : Deployment)
| DeploymentPermissionDenied (id context : string)
| DeploymentNotFound.

Inductive PatchResult : Type :=
| Patched
| ForbiddenScaleMinInstances (max : N)
| ForbiddenScaleMaxInstances (max : N)
| InvalidScaleMinMaxRelation
| NotSupportedMinScaleSlots.

Inductive VerifyResult : Type :=
| Verified
| VerifyScaleTimeout (timeout : N).

(** An awaited promise resolves to a value or rejects with an exception. *)
Inductive Settled (A : Type) : Type :=
| Resolved (a : A)
| Rejected (e : string).

Arguments Resolved {A} a.
Arguments Rejected {A} e.

(** ** What the command prints *)

Inductive ErrorMessage : Type :=
| DeprecatedLs
| ExpectsAtLeastTwoArguments
| AllAlongsideOthers
| NotAValidRegionOrDC (regionOrDC : string)
| InvalidMinParameter (value : string)
| InvalidNumberOfArguments (min : Bound)
| InvalidMaxParameter (value : string)
| NoPermission (id context : string)
| FailedToFindDeployment (id contextName : string)
| StaticDeployment
| ErrorState
| MinInstancesPlanLimit (max : N)
| MaxInstancesPlanLimit (max : N)
| MinHigherThanMax
| NoMinOnCloudV2
| VerificationTimedOut (timeout : N).

Inductive Output : Type :=
| OutputError (msg : ErrorMessage)
| OutputLogFetched (url : string)
| OutputLogReadMore
| OutputDebug (scaleArgs : DeploymentScaleArgs)
| OutputSuccess
| ConsoleLogSaved (dcs : list string) (min max : Bound)
| Help
| HandleError (err : string).

(** ** Calls and program trees *)

(** The calls [main] makes, indexed by the type of what they give back. *)
Inductive Call : Type → Type :=
| Print (o : Output) : Call unit
| NowClose : Call unit
| GetDeploymentByIdOrHost (contextName id : string) :
    Call (Settled FetchResult)
| PatchDeploymentScale (deploymentId : string)
    (scaleArgs : DeploymentScaleArgs) (deploymentUrl : string) :
    Call (Settled PatchResult)
| GetDeploymentByIdOrThrow (contextName id : string) :
    Call (Settled Deployment)
| WaitVerifyDeploymentScale (deploymentId : string)
    (scale : DeploymentScaleArgs) : Call (Settled VerifyResult).

Inductive Prog (A : Type) : Type :=
| Ret (a : A)
| Throw (e : string)
| Vis {X : Type} (c : Call X) (k : X → Prog A).

Arguments Ret {A} a.
Arguments Throw {A} e.
Arguments Vis {A X} c k.

Fixpoint bind {A B : Type} (p : Prog A) (f : A → Prog B) : Prog B :=
  match p with
  | Ret a => f a
  | Throw e => Throw e
  | Vis c k => Vis c (λ x, bind (k x) f)
  end.

#[global] Instance Prog_ret : MRet Prog := λ A a, Ret a.
#[global] Instance Prog_bind : MBind Prog := λ A B f p, bind p f.

Definition call {X : Type} (c : Call X) : Prog X := Vis c Ret.

(** [await]: a rejected promise is rethrown at the await. *)
Definition await {X : Type} (c : Call (Settled X)) : Prog X :=
  Vis c (λ s, match s with Resolved x => Ret x | Rejected e => Throw e end).

Definition output_error (msg : ErrorMessage) : Prog unit :=
  call (Print (OutputError msg)).

Definition now_close : Prog unit := call NowClose.

(** ** Runs *)

(** One entry of a trace: a call that was made. *)
Inductive Event : Type :=
| Ev {X : Type} (c : Call X).

(** How the promise returned by [main] settles. *)
Inductive Outcome (A : Type) : Type :=
| Returned (a : A)
| Thrown (e : string).

Arguments Returned {A} a.
Arguments Thrown {A} e.

(** The remote side: what each network call settles to. *)
Record World : Type := {
  on_getDeploymentByIdOrHost : string → string → Settled FetchResult;
  on_patchDeploymentScale :
    string → DeploymentScaleArgs → string → Settled PatchResult;
  on_getDeploymentByIdOrThrow : string → string → Settled Deployment;
  on_waitVerifyDeploymentScale :
    string → DeploymentScaleArgs → Settled VerifyResult
}.

Definition respond (w : World) {X : Type} (c : Call X) : X :=
  match c in Call T return T with
  | Print _ => tt
  | NowClose => tt
  | GetDeploymentByIdOrHost contextName id =>
      on_getDeploymentByIdOrHost w contextName id
  | PatchDeploymentScale deploymentId scaleArgs deploymentUrl =>
      on_patchDeploymentScale w deploymentId scaleArgs deploymentUrl
  | GetDeploymentByIdOrThrow contextName id =>
      on_getDeploymentByIdOrThrow w contextName id
  | WaitVerifyDeploymentScale deploymentId sc =>
      on_waitVerifyDeploymentScale w deploymentId sc
  end.

Fixpoint run {A : Type} (w : World) (p : Prog A) : list Event * Outcome A :=
  match p with
  | Ret a => ([], Returned a)
  | Throw e => ([], Thrown e)
  | Vis c k =>
      let r := run w (k (respond w c)) in (Ev c :: r.1, r.2)
  end.

Definition trace {A : Type} (w : World) (p : Prog A) : list Event :=
  (run w p).1.

Definition outcome {A : Type} (w : World) (p : Prog A) : Outcome A :=
  (run w p).2.

(** The calls that go over the network. *)
Definition is_fetch (e : Event) : bool :=
  match e with
  | Ev (GetDeploymentByIdOrHost _ _) => true
  | _ => false
  end.

Definition is_patch (e : Event) : bool :=
  match e with
  | Ev (PatchDeploymentScale _ _ _) => true
  | _ => false
  end.

Definition is_refetch (e : Event) : bool :=
  match e with
  | Ev (GetDeploymentByIdOrThrow _ _) => true
  | _ => false
  end.

Definition is_verify (e : Event) : bool :=
  match e with
  | Ev (WaitVerifyDeploymentScale _ _) => true
  | _ => false
  end.

Definition is_network (e : Event) : bool :=
  is_fetch e || is_patch e || is_refetch e || is_verify e.

(** ** The command *)

(** Line 165: [dcs.reduce((result, dc) => ({...result, [dc]: { min, max }}), {})],
    as the mapping from key to pair that the object is; the order in which
    the object lists its keys is not kept. *)
Definition scaleArgs (dcs : list string) (min max : Bound)
  : DeploymentScaleArgs :=
  foldl (λ result dc,
           <[dc := {| range_min := min; range_max := max |}]> result) ∅ dcs.

Module Scale.

Section Command.

(** The helpers imported at lines 12-18; their files are not part of the
    sources at hand, so [main] is stated over any implementation. *)
Variable getArgs : list string → string + CLIScaleOptions.
Variable getContextName : ShConfig → string.
Variable getDCsFromArgs : list string → DCsResult.
Variable getMinFromArgs : list string → MinResult.
Variable getMaxFromArgs : list string → MaxResult.

(** Lines 194-213: the verification of an accepted patch. *)
Definition verifyScale (argv : CLIScaleOptions) (contextName : string)
    (deployment : Deployment) : Prog Z :=
  if opt_no_verify argv then now_close;; Ret 0
  else
    updatedDeployment ←
      await (GetDeploymentByIdOrThrow contextName (uid deployment));
    if bool_decide (type updatedDeployment = "NPM")
       || bool_decide (type updatedDeployment = "DOCKER")
    then
      result ← await (WaitVerifyDeploymentScale (uid deployment)
                        (scale updatedDeployment));
      match result with
      | VerifyScaleTimeout timeout =>
          output_error (VerificationTimedOut timeout);; now_close;; Ret 1
      | Verified => call (Print OutputSuccess);; now_close;; Ret 0
      end
    else now_close;; Ret 0.

(** Lines 139-192: fetch the deployment, check it, send the rules.
    [argv._[1]] is there: the count check has passed. *)
Definition scaleDeployment (argv : CLIScaleOptions) (contextName : string)
    (dcs : list string) (min max : Bound) : Prog Z :=
  let id := default "" (argv_ argv !! 1%nat) in
  deployment ← await (GetDeploymentByIdOrHost contextName id);
  match deployment with
  | DeploymentPermissionDenied id' context =>
      output_error (NoPermission id' context);; now_close;; Ret 1
  | DeploymentNotFound =>
      output_error (FailedToFindDeployment id contextName);;
      now_close;; Ret 1
  | Fetched deployment =>
      call (Print (OutputLogFetched (url deployment)));;
      if bool_decide (type deployment = "STATIC") then
        output_error StaticDeployment;; now_close;; Ret 1
      else if bool_decide (state deployment = "ERROR") then
        output_error ErrorState;; now_close;; Ret 1
      else
        let scaleArgs := scaleArgs dcs min max in
        call (Print (OutputDebug scaleArgs));;
        result ← await (PatchDeploymentScale (uid deployment) scaleArgs
                          (url deployment));
        match result with
        | ForbiddenScaleMinInstances m =>
            output_error (MinInstancesPlanLimit m);; now_close;; Ret 1
        | ForbiddenScaleMaxInstances m =>
            output_error (MaxInstancesPlanLimit m);; now_close;; Ret 1
        | InvalidScaleMinMaxRelation =>
            output_error MinHigherThanMax;; now_close;; Ret 1
        | NotSupportedMinScaleSlots =>
            output_error NoMinOnCloudV2;;
            call (Print OutputLogReadMore);; now_close;; Ret 1
        | Patched =>
            call (Print (ConsoleLogSaved dcs min max));;
            verifyScale argv contextName deployment
        end
  end.

(** Lines 91-137: the checks made before anything is fetched. *)
Definition scaleCommand (argv : CLIScaleOptions) (contextName : string)
    : Prog Z :=
  if bool_decide (argv_ argv !! 1%nat = Some "ls") then
    output_error DeprecatedLs;; now_close;; Ret 1
  else if bool_decide (length (argv_ argv) < 3)%nat
          || bool_decide (5 < length (argv_ argv))%nat then
    output_error ExpectsAtLeastTwoArguments;;
    call (Print Help);; now_close;; Ret 1
  else
    match getDCsFromArgs (argv_ argv) with
    | InvalidAllForScale =>
        output_error AllAlongsideOthers;; now_close;; Ret 1
    | InvalidRegionOrDCForScale regionOrDC =>
        output_error (NotAValidRegionOrDC regionOrDC);; now_close;; Ret 1
    | DCs dcs =>
        match getMinFromArgs (argv_ argv) with
        | InvalidMinForScale value =>
            output_error (InvalidMinParameter value);; now_close;; Ret 1
        | Min min =>
            match getMaxFromArgs (argv_ argv) with
            | InvalidMinForScale' value =>
                output_error (InvalidMinParameter value);;
                now_close;; Ret 1
            | InvalidArgsForMinMaxScale m =>
                output_error (InvalidNumberOfArguments m);;
                now_close;; Ret 1
            | InvalidMaxForScale value =>
                output_error (InvalidMaxParameter value);;
                now_close;; Ret 1
            | Max max => scaleDeployment argv contextName dcs min max
            end
        end
    end.

(** [module.exports = async function main(ctx)].  The client and the
    output channel built at lines 87-88 (from the API url, the token,
    --debug and the team) are what the calls go through; their
    construction is not a call of the tree. *)
Definition main (ctx : CLIContext) : Prog Z :=
  match getArgs (drop 2 (argv ctx)) with
  | inl err => call (Print (HandleError err));; Ret 1
  | inr argv =>
      if opt_help argv then call (Print Help);; Ret 2
      else
        match
          find (λ item, bool_decide (provider item = "sh"))
               (credentials ctx)
        with
        | None => Throw "TypeError"
        | Some _ => scaleCommand argv (getContextName (sh ctx))
        end
  end.

(** *** Path conditions *)

(** [ctx] is an invocation of the command proper with options [argv]:
    the arguments tokenize, help is not asked for, a login exists. *)
Definition invocation (ctx : CLIContext) (opts : CLIScaleOptions) : Prop :=
  getArgs (drop 2 (argv ctx)) = inr opts
  ∧ opt_help opts = false
  ∧ is_Some (find (λ item, bool_decide (provider item = "sh"))
               (credentials ctx)).

(** Target resolution or min/max parsing fails on [args]. *)
Definition parsingFails (args : list string) : Prop :=
  getDCsFromArgs args = InvalidAllForScale
  ∨ (∃ regionOrDC, getDCsFromArgs args = InvalidRegionOrDCForScale regionOrDC)
  ∨ (∃ value, getMinFromArgs args = InvalidMinForScale value)
  ∨ (∃ value, getMaxFromArgs args = InvalidMinForScale' value)
  ∨ (∃ value, getMaxFromArgs args = InvalidMaxForScale value)
  ∨ (∃ min, getMaxFromArgs args = InvalidArgsForMinMaxScale min).

(** The local checks of lines 91-137 pass and resolve [dcs], [min] and
    [max]. *)
Definition accepted (argv : CLIScaleOptions) (dcs : list string)
    (min max : Bound) : Prop :=
  argv_ argv !! 1%nat ≠ Some "ls"
  ∧ (3 ≤ length (argv_ argv) ≤ 5)%nat
  ∧ getDCsFromArgs (argv_ argv) = DCs dcs
  ∧ getMinFromArgs (argv_ argv) = Min min
  ∧ getMaxFromArgs (argv_ argv) = Max max.

(** The deployment named by the invocation is fetched as [deployment]. *)
Definition fetches (w : World) (ctx : CLIContext) (argv : CLIScaleOptions)
    (deployment : Deployment) : Prop :=
  on_getDeploymentByIdOrHost w (getContextName (sh ctx))
    (default "" (argv_ argv !! 1%nat)) = Resolved (Fetched deployment).

(** [deployment] passes the checks of lines 155-163. *)
Definition scalable (deployment : Deployment) : Prop :=
  type deployment ≠ "STATIC" ∧ state deployment ≠ "ERROR".

(** The remote accepts the rules for [dcs], [min] and [max]. *)
Definition patches (w : World) (deployment : Deployment)
    (dcs : list string) (min max : Bound) : Prop :=
  on_patchDeploymentScale w (uid deployment) (scaleArgs dcs min max)
    (url deployment) = Resolved Patched.

(** The deployment is fetched again as [updatedDeployment]. *)
Definition refetches (w : World) (ctx : CLIContext)
    (deployment updatedDeployment : Deployment) : Prop :=
  on_getDeploymentByIdOrThrow w (getContextName (sh ctx)) (uid deployment)
  = Resolved updatedDeployment.

End Command.

End Scale.

(** The error messages of the count check and of an inverted relation. *)
Definition is_usage_error (e : Event) : bool :=
  match e with
  | Ev (Print (OutputError ExpectsAtLeastTwoArguments)) => true
  | _ => false
  end.


(** ** The helpers that are not among the sources

    [main] imports its parsers and its poller from ../util/.  For runs on
    concrete inputs they are modelled here from the specification. *)

Module Util.

(** Decimal numerals. *)
Definition digit (a : Ascii.ascii) : option N :=
  let n := Ascii.N_of_ascii a in
  if (48 <=? n)%N && (n <=? 57)%N then Some (n - 48)%N else None.

Fixpoint parseDigits (s : string) (acc : N) : option N :=
  match s with
  | EmptyString => Some acc
  | String a s' => d ← digit a; parseDigits s' (10 * acc + d)%N
  end.

Definition parseCount (s : string) : option N :=
  match s with
  | EmptyString => None
  | _ => parseDigits s 0%N
  end.

Fixpoint takeWhile {A : Type} (f : A → bool) (l : list A) : list A :=
  match l with
  | [] => []
  | x :: l' => if f x then x :: takeWhile f l' else []
  end.

Fixpoint dropWhile {A : Type} (f : A → bool) (l : list A) : list A :=
  match l with
  | [] => []
  | x :: l' => if f x then dropWhile f l' else l
  end.

(** A token that starts with a dash (code 45). *)
Definition isDashed (t : string) : bool :=
  match t with
  | String a _ => bool_decide (Ascii.N_of_ascii a = 45%N)
  | EmptyString => false
  end.

(** Modelled from the spec: get-args.js is missing, and the spec leaves
    flag tokenizing to the CLI layer.  This is the smallest reading of
    the option table of lines 65-69 and of the help text: the flags the
    command knows, every other dashed token refused, the rest kept in
    order as positional arguments. *)
Fixpoint getArgsFrom (l : list string) (acc : CLIScaleOptions)
  : string + CLIScaleOptions :=
  match l with
  | [] => inr acc
  | t :: l' =>
      if bool_decide (t = "--help") || bool_decide (t = "-h") then
        getArgsFrom l' {| argv_ := argv_ acc; opt_help := true;
                          opt_debug := opt_debug acc;
                          opt_no_verify := opt_no_verify acc;
                          opt_verify_timeout := opt_verify_timeout acc |}
      else if bool_decide (t = "--debug") || bool_decide (t = "-d") then
        getArgsFrom l' {| argv_ := argv_ acc; opt_help := opt_help acc;
                          opt_debug := true;
                          opt_no_verify := opt_no_verify acc;
                          opt_verify_timeout := opt_verify_timeout acc |}
      else if bool_decide (t = "--no-verify") || bool_decide (t = "-n") then
        getArgsFrom l' {| argv_ := argv_ acc; opt_help := opt_help acc;
                          opt_debug := opt_debug acc;
                          opt_no_verify := true;
                          opt_verify_timeout := opt_verify_timeout acc |}
      else if bool_decide (t = "--verify-timeout") then
        match l' with
        | v :: l'' =>
            match parseCount v with
            | Some n =>
                getArgsFrom l''
                  {| argv_ := argv_ acc; opt_help := opt_help acc;
                     opt_debug := opt_debug acc;
                     opt_no_verify := opt_no_verify acc;
                     opt_verify_timeout := Some n |}
            | None => inl "ARG_INVALID_VALUE"
            end
        | [] => inl "ARG_MISSING_REQUIRED_LONGARG"
        end
      else
        if isDashed t then inl "ARG_UNKNOWN_OPTION"
        else
          getArgsFrom l'
            {| argv_ := argv_ acc ++ [t]; opt_help := opt_help acc;
               opt_debug := opt_debug acc;
               opt_no_verify := opt_no_verify acc;
               opt_verify_timeout := opt_verify_timeout acc |}
  end.

(** Modelled from the spec: the tokenizer above, started with no flag set
    and no positional argument. *)
Definition getArgs (l : list string) : string + CLIScaleOptions :=
  getArgsFrom l {| argv_ := []; opt_help := false; opt_debug := false;
                   opt_no_verify := false; opt_verify_timeout := None |}.

(** Modelled from the spec: get-context-name.js is missing and the spec
    only names an ambient team/context (section 9); the context is the
    current team, or the user when no team is set. *)
Definition getContextName (sh : ShConfig) : string :=
  default "user" (currentTeam sh).

(** *** Target Resolver and Bound Parser *)

(** Modelled from the spec: how the raw list splits into target tokens
    and bound tokens is in the missing parsers.  The spec (4.1, 4.2, 6)
    has a list of target tokens after the deployment identifier and the
    bounds at the positions after them; a token opens the bounds when it
    is 'auto' or starts with a digit. *)
Definition isBoundToken (t : string) : bool :=
  bool_decide (t = "auto")
  || match t with
     | String a _ => bool_decide (is_Some (digit a))
     | EmptyString => false
     end.

(** Modelled from the spec: the target tokens are the tokens after the
    subcommand and the deployment identifier, up to the first bound. *)
Definition targetTokens (args : list string) : list string :=
  takeWhile (λ t, negb (isBoundToken t)) (drop 2 args).

(** Modelled from the spec: the bounds are at the positions after the
    target tokens (spec 4.2). *)
Definition boundTokens (args : list string) : list string :=
  dropWhile (λ t, negb (isBoundToken t)) (drop 2 args).

Section Resolver.

(** The table of region and datacenter codes is not among the sources. *)
Variable regionsAndDCs : list string.

(** Modelled from the spec: a target token is 'all' or a known region or
    datacenter code (spec 3, 4.1). *)
Definition isRegionOrDC (t : string) : bool :=
  bool_decide (t = "all") || bool_decide (t ∈ regionsAndDCs).

(** Modelled from the spec: get-dcs-from-args.js is missing.  Spec 4.1:
    'all' together with any other token fails with InvalidAllForScale;
    a token that is not a known region or datacenter code fails with
    InvalidRegionOrDCForScale carrying it; otherwise the targets come
    back in order, without duplicates. *)
Definition getDCsFromArgs (args : list string) : DCsResult :=
  let tokens := targetTokens args in
  if bool_decide ("all" ∈ tokens)
     && existsb (λ t, negb (bool_decide (t = "all"))) tokens
  then InvalidAllForScale
  else
    match find (λ t, negb (isRegionOrDC t)) tokens with
    | Some t => InvalidRegionOrDCForScale t
    | None => DCs (remove_dups tokens)
    end.

End Resolver.

(** Modelled from the spec: a min token is a non-negative integer or
    'auto' (spec 4.2). *)
Definition toMin (t : string) : option Bound :=
  if bool_decide (t = "auto") then Some Auto else Count <$> parseCount t.

(** Modelled from the spec: a max token is a positive integer or 'auto'
    (spec 4.2). *)
Definition toMax (t : string) : option Bound :=
  if bool_decide (t = "auto") then Some Auto
  else
    match parseCount t with
    | Some n => if (0 <? n)%N then Some (Count n) else None
    | None => None
    end.

(** Modelled from the spec: get-min-from-args.js is missing.  Spec 4.2:
    an absent min is 0; a present one must be a valid min token,
    otherwise InvalidMinForScale with the raw value. *)
Definition getMinFromArgs (args : list string) : MinResult :=
  match boundTokens args with
  | [] => Min (Count 0)
  | t :: _ =>
      match toMin t with
      | Some min => Min min
      | None => InvalidMinForScale t
      end
  end.

(** Modelled from the spec: get-max-from-args.js is missing.  Spec 4.2:
    an absent max is 1, unless min is 'auto', where the missing max is
    InvalidArgsForMinMaxScale carrying the min; a present one must be a
    valid max token, otherwise InvalidMaxForScale.  Nothing relates min
    to max. *)
Definition getMaxFromArgs (args : list string) : MaxResult :=
  match boundTokens args with
  | [] => Max (Count 1)
  | [t] =>
      match toMin t with
      | None => InvalidMinForScale' t
      | Some Auto => InvalidArgsForMinMaxScale Auto
      | Some (Count _) => Max (Count 1)
      end
  | t :: u :: _ =>
      match toMin t with
      | None => InvalidMinForScale' t
      | Some _ =>
          match toMax u with
          | Some max => Max max
          | None => InvalidMaxForScale u
          end
      end
  end.

(** *** Convergence Poller *)

(** Modelled from the spec: what the remote reports for one target.  The
    spec (3, 4.5) has a per-target instance-count/scale snapshot whose
    state is compared with the requested bounds; here it holds a count
    for each of the two bounds. *)
Record Reported : Type := { reported_min : N; reported_max : N }.

Abbreviation Snapshot := (gmap string Reported).

(** Modelled from the spec: a reported count satisfies a bound by exact
    match for a concrete integer, any non-negative count for 'auto'
    (spec 4.5). *)
Definition satisfies (b : Bound) (n : N) : bool :=
  match b with
  | Count k => (n =? k)%N
  | Auto => (0 <=? n)%N
  end.

(** Modelled from the spec: the same, as a proposition. *)
Definition meets (b : Bound) (n : N) : Prop :=
  match b with
  | Count k => n = k
  | Auto => (0 ≤ n)%N
  end.

(** Modelled from the spec: a target has converged when the snapshot has
    a state for it that satisfies both of its bounds. *)
Definition targetConverged (snapshot : Snapshot) (dc : string)
    (r : ScaleRange) : bool :=
  match snapshot !! dc with
  | Some st =>
      satisfies (range_min r) (reported_min st)
      && satisfies (range_max r) (reported_max st)
  | None => false
  end.

(** Modelled from the spec: converged means that every target of the
    rules has (spec 4.5). *)
Definition converged (scale : DeploymentScaleArgs) (snapshot : Snapshot)
  : bool :=
  forallb (λ e, targetConverged snapshot e.1 e.2) (map_to_list scale).

(** Modelled from the spec: wait-verify-deployment-scale.js is missing.
    Spec 4.5, 5 and 9: an explicit loop with an injected clock; each
    round reads the snapshot once, stops when it has converged, and
    otherwise sleeps for the fixed interval; once the elapsed time
    exceeds the timeout it gives VerifyScaleTimeout with the configured
    timeout and reads nothing more.  [k] counts the reads made so far,
    [fuel] bounds the rounds. *)
Fixpoint poll (snapshots : nat → Snapshot) (scale : DeploymentScaleArgs)
    (interval : positive) (timeout : N) (fuel k : nat) (elapsed : N)
  : option VerifyResult :=
  match fuel with
  | O => None
  | S fuel' =>
      if converged scale (snapshots k) then Some Verified
      else
        let elapsed' := (elapsed + Npos interval)%N in
        if (timeout <? elapsed')%N then Some (VerifyScaleTimeout timeout)
        else poll snapshots scale interval timeout fuel' (S k) elapsed'
  end.

(** The reads that fit before the deadline, one every [interval]. *)
Definition rounds (interval : positive) (timeout : N) : nat :=
  S (N.to_nat (timeout / Npos interval)).

(** Modelled from the spec: the poller starts its clock at 0 and runs the
    loop with the rounds that fit; [waitVerifyDeploymentScale_spec] shows
    that the loop always ends within them. *)
Definition waitVerifyDeploymentScale (snapshots : nat → Snapshot)
    (interval : positive) (timeout : N) (scale : DeploymentScaleArgs)
  : VerifyResult :=
  default (VerifyScaleTimeout timeout)
    (poll snapshots scale interval timeout (rounds interval timeout)
       0%nat 0%N).

(** The remote side of a run, with the poller above in the place of the
    missing one. *)
Record Remote : Type := {
  remote_deployment : string → string → Settled FetchResult;
  remote_patch :
    string → DeploymentScaleArgs → string → Settled PatchResult;
  remote_updated : string → string → Settled Deployment;
  remote_snapshots : string → nat → Snapshot;
  poll_interval : positive;
  verify_timeout : N
}.

Definition world (r : Remote) : World := {|
  on_getDeploymentByIdOrHost := remote_deployment r;
  on_patchDeploymentScale := remote_patch r;
  on_getDeploymentByIdOrThrow := remote_updated r;
  on_waitVerifyDeploymentScale := λ deploymentId scale,
    Resolved (waitVerifyDeploymentScale (remote_snapshots r deploymentId)
                (poll_interval r) (verify_timeout r) scale)
|}.

End Util.

(** ** The command over the modelled helpers *)

(** Region and datacenter codes used in the sample runs. *)
Definition sampleRegionsAndDCs : list string := ["sfo"; "bru"; "sfo1"; "bru1"].

Definition command (ctx : CLIContext) : Prog Z :=
  Scale.main Util.getArgs Util.getContextName
    (Util.getDCsFromArgs sampleRegionsAndDCs)
    Util.getMinFromArgs Util.getMaxFromArgs ctx.

(** ** Sample contexts and remotes *)

Definition sampleContext (args : list string) : CLIContext := {|
  argv := "node" :: "now" :: "scale" :: args;
  credentials := [{| provider := "sh"; token := "secret" |}];
  sh := {| currentTeam := Some "acme" |};
  apiUrl := "https://api.zeit.co"
|}.

Definition sampleDeployment (type : string) (scale : DeploymentScaleArgs)
  : Deployment := {|
  uid := "dpl_1"; url := "my-deployment-123.now.sh";
  type := type; state := "READY"; scale := scale
|}.

Definition rule (min max : Bound) : ScaleRange :=
  {| range_min := min; range_max := max |}.

(** A remote with one deployment of the given type: it answers the patch
    with [patch], reports [updatedScale] as the rules of the deployment
    fetched again, and [snapshots k] at the k-th poll.  The poller sleeps 1
    between polls and gives up after 3. *)
Definition sampleRemote (type : string) (patch : PatchResult)
    (updatedScale : DeploymentScaleArgs) (snapshots : nat → Util.Snapshot)
  : Util.Remote := {|
  Util.remote_deployment := λ _ _,
    Resolved (Fetched (sampleDeployment type ∅));
  Util.remote_patch := λ _ _ _, Resolved patch;
  Util.remote_updated := λ _ _,
    Resolved (sampleDeployment type updatedScale);
  Util.remote_snapshots := λ _, snapshots;
  Util.poll_interval := 1%positive;
  Util.verify_timeout := 3%N
|}.

(** The options [Util.getArgs] reads from the positional arguments [args]
    of a sample context. *)
Definition sampleOptions (args : list string) : CLIScaleOptions := {|
  argv_ := "scale" :: args;
  opt_help := false;
  opt_debug := false;
  opt_no_verify := false;
  opt_verify_timeout := None
|}.

Definition reported (min max : N) : Util.Reported :=
  {| Util.reported_min := min; Util.reported_max := max |}.

(** The message that tells that the scale was verified. *)
Definition is_success (e : Event) : bool :=
  match e with
  | Ev (Print OutputSuccess) => true
  | _ => false
  end.

(** ** Observations on traces *)

Definition is_close (e : Event) : bool :=
  match e with
  | Ev NowClose => true
  | _ => false
  end.

Definition is_error (e : Event) : bool :=
  match e with
  | Ev (Print (OutputError _)) => true
  | _ => false
  end.

(** The four calls that go over the network, in the order of the source. *)
Inductive NetworkCall : Type :=
| FetchCall
| PatchCall
| RefetchCall
| VerifyCall.

Definition network_call (e : Event) : option NetworkCall :=
  match e with
  | Ev (GetDeploymentByIdOrHost _ _) => Some FetchCall
  | Ev (PatchDeploymentScale _ _ _) => Some PatchCall
  | Ev (GetDeploymentByIdOrThrow _ _) => Some RefetchCall
  | Ev (WaitVerifyDeploymentScale _ _) => Some VerifyCall
  | _ => None
  end.

(** In world [w] the call [ev] is a network call whose promise rejects
    with [e]. *)
Definition rejects (w : World) (ev : Event) (e : string) : Prop :=
  match ev with
  | Ev (GetDeploymentByIdOrHost contextName id) =>
      on_getDeploymentByIdOrHost w contextName id = Rejected e
  | Ev (PatchDeploymentScale deploymentId scaleArgs deploymentUrl) =>
      on_patchDeploymentScale w deploymentId scaleArgs deploymentUrl
      = Rejected e
  | Ev (GetDeploymentByIdOrThrow contextName id) =>
      on_getDeploymentByIdOrThrow w contextName id = Rejected e
  | Ev (WaitVerifyDeploymentScale deploymentId sc) =>
      on_waitVerifyDeploymentScale w deploymentId sc = Rejected e
  | _ => False
  end.

(** A world given by what each of the four calls settles to. *)
Definition sampleWorld (fetch : Settled FetchResult)
    (patch : Settled PatchResult) (updated : Settled Deployment)
    (verify : Settled VerifyResult) : World := {|
  on_getDeploymentByIdOrHost := λ _ _, fetch;
  on_patchDeploymentScale := λ _ _ _, patch;
  on_getDeploymentByIdOrThrow := λ _ _, updated;
  on_waitVerifyDeploymentScale := λ _ _, verify
|}.

(** * Properties of the command *)

(** Unfolds one stage of a run down to its calls. *)
Ltac run_stage :=
  cbn [run trace outcome mbind mret Prog_bind Prog_ret bind call await
       output_error now_close respond fst snd].

(** Splits on every test and every collaborator result in the goal. *)
Ltac run_cases :=
  repeat (run_stage;
          first [ case_bool_decide | case_match ];
          simplify_eq/=; try done);
  run_stage; try done.

(** ** The Scale Spec Builder *)

Lemma scaleArgs_snoc (dcs : list string) (dc : string) (min max : Bound) :
  scaleArgs (dcs ++ [dc]) min max
  = <[dc := {| range_min := min; range_max := max |}]> (scaleArgs dcs min max).
Proof. unfold scaleArgs. by rewrite foldl_app. Qed.

Lemma scaleArgs_dom (dcs : list string) (min max : Bound) :
  dom (scaleArgs dcs min max) = list_to_set dcs.
Proof.
  induction dcs as [|dc dcs IH] using rev_ind; [done|].
  rewrite scaleArgs_snoc, dom_insert_L, IH, list_to_set_app_L. simpl.
  rewrite (right_id_L ∅ (∪)). apply (comm_L (∪)).
Qed.

Lemma scaleArgs_lookup (dcs : list string) (min max : Bound) (dc : string)
    (range : ScaleRange) :
  scaleArgs dcs min max !! dc = Some range →
  range = {| range_min := min; range_max := max |}.
Proof.
  induction dcs as [|dc' dcs IH] using rev_ind; [done|].
  rewrite scaleArgs_snoc. destruct (decide (dc' = dc)) as [->|Hne].
  - rewrite lookup_insert_eq. congruence.
  - by rewrite lookup_insert_ne.
Qed.

Lemma scaleArgs_lookup_elem (dcs : list string) (min max : Bound)
    (dc : string) :
  dc ∈ dcs →
  scaleArgs dcs min max !! dc = Some {| range_min := min; range_max := max |}.
Proof.
  intros Hin.
  assert (Hdom : dc ∈ dom (scaleArgs dcs min max))
    by (rewrite scaleArgs_dom; by apply elem_of_list_to_set).
  apply elem_of_dom in Hdom as [range Hrange].
  by rewrite Hrange, (scaleArgs_lookup _ _ _ _ _ Hrange).
Qed.

(** The rule of a target is there exactly when the target is listed. *)
Lemma scaleArgs_lookup_None (dcs : list string) (min max : Bound)
    (dc : string) :
  dc ∉ dcs → scaleArgs dcs min max !! dc = None.
Proof.
  intros Hout. apply not_elem_of_dom.
  rewrite scaleArgs_dom. by rewrite elem_of_list_to_set.
Qed.

(** X15. Which rule a key has depends only on which targets are listed:
    for two lists with the same members, in any order and with any
    repetitions, every key has the same rule in both objects, or is in
    neither.  (The order in which the keys are listed is not part of
    this.) *)
Theorem scaleArgs_set_of_targets (dcs dcs' : list string)
    (min max : Bound) (dc : string) :
  (∀ dc, dc ∈ dcs ↔ dc ∈ dcs') →
  scaleArgs dcs min max !! dc = scaleArgs dcs' min max !! dc.
Proof.
  intros Hsame.
  destruct (decide (dc ∈ dcs)) as [Hin|Hout].
  - rewrite !scaleArgs_lookup_elem; [done|by apply Hsame|done].
  - rewrite !scaleArgs_lookup_None; [done| |done].
    intros Hin. by apply Hout, Hsame.
Qed.

(** X16. There are as many rules as distinct targets. *)
Theorem scaleArgs_size (dcs : list string) (min max : Bound) :
  size (scaleArgs dcs min max) = length (remove_dups dcs).
Proof.
  rewrite <- size_dom, scaleArgs_dom.
  rewrite <- (size_list_to_set (C := gset string) (remove_dups dcs))
    by apply NoDup_remove_dups.
  f_equal. apply set_eq. intros dc.
  by rewrite !elem_of_list_to_set, elem_of_remove_dups.
Qed.

Section CommandFacts.

Variable getArgs : list string → string + CLIScaleOptions.
Variable getContextName : ShConfig → string.
Variable getDCsFromArgs : list string → DCsResult.
Variable getMinFromArgs : list string → MinResult.
Variable getMaxFromArgs : list string → MaxResult.

Local Abbreviation main :=
  (Scale.main getArgs getContextName getDCsFromArgs getMinFromArgs
     getMaxFromArgs).
Local Abbreviation scaleCommand :=
  (Scale.scaleCommand getDCsFromArgs getMinFromArgs getMaxFromArgs).
Local Abbreviation invocation := (Scale.invocation getArgs).
Local Abbreviation accepted :=
  (Scale.accepted getDCsFromArgs getMinFromArgs getMaxFromArgs).
Local Abbreviation parsingFails :=
  (Scale.parsingFails getDCsFromArgs getMinFromArgs getMaxFromArgs).
Local Abbreviation fetches := (Scale.fetches getContextName).
Local Abbreviation refetches := (Scale.refetches getContextName).

(** An invocation runs the command proper. *)
Lemma main_invocation (ctx : CLIContext) (argv : CLIScaleOptions) :
  invocation ctx argv →
  main ctx = scaleCommand argv (getContextName (sh ctx)).
Proof.
  intros (Hargs & Hhelp & [c Hc]). unfold Scale.main.
  by rewrite Hargs, Hhelp, Hc.
Qed.

(** Accepted arguments go on to the deployment. *)
Lemma scaleCommand_accepted (argv : CLIScaleOptions) (contextName : string)
    (dcs : list string) (min max : Bound) :
  accepted argv dcs min max →
  scaleCommand argv contextName
  = Scale.scaleDeployment argv contextName dcs min max.
Proof.
  intros (Hls & [Hlo Hhi] & Hdcs & Hmin & Hmax).
  unfold Scale.scaleCommand. rewrite Hdcs, Hmin, Hmax.
  rewrite bool_decide_eq_false_2 by done.
  rewrite (bool_decide_eq_false_2 (_ < 3)%nat) by lia.
  by rewrite (bool_decide_eq_false_2 (5 < _)%nat) by lia.
Qed.

(** C10. When the deployment-identifier position holds the token "ls",
    the command prints the deprecation error, closes the client and
    returns 1: the argument count is not looked at, nothing is parsed
    and no call goes over the network. *)
Theorem ls_is_deprecated (ctx : CLIContext) (argv : CLIScaleOptions)
    (w : World) :
  invocation ctx argv →
  argv_ argv !! 1%nat = Some "ls" →
  run w (main ctx)
  = ([Ev (Print (OutputError DeprecatedLs)); Ev NowClose], Returned 1).
Proof.
  intros Hinv Hls. rewrite (main_invocation _ _ Hinv).
  unfold Scale.scaleCommand.
  by rewrite bool_decide_eq_true_2.
Qed.

(** A parsing failure ends the run before the first network call. *)
Lemma run_parsing_fails (ctx : CLIContext) (argv : CLIScaleOptions)
    (w : World) :
  invocation ctx argv →
  parsingFails (argv_ argv) →
  outcome w (main ctx) = Returned 1
  ∧ existsb is_network (trace w (main ctx)) = false.
Proof.
  intros Hinv Hfail. rewrite (main_invocation _ _ Hinv).
  unfold Scale.scaleCommand, trace, outcome.
  destruct Hfail as [H|[[? H]|[[? H]|[[? H]|[[? H]|[? H]]]]]];
    run_cases; rewrite H in *; simplify_eq.
Qed.

(** C3. When target resolution or min/max parsing fails, the command
    returns 1 and its trace holds no network call: neither the
    deployment fetch nor the scale patch is made. *)
Theorem parse_failure_is_local (ctx : CLIContext) (argv : CLIScaleOptions)
    (w : World) :
  invocation ctx argv →
  parsingFails (argv_ argv) →
  outcome w (main ctx) = Returned 1
  ∧ existsb is_network (trace w (main ctx)) = false
  ∧ existsb is_fetch (trace w (main ctx)) = false
  ∧ existsb is_patch (trace w (main ctx)) = false.
Proof.
  intros Hinv Hfail.
  destruct (run_parsing_fails _ _ w Hinv Hfail) as [Hout Hnet].
  split; [done|]. split; [done|].
  induction (trace w (main ctx)) as [|e t IH]; [done|].
  simpl in *. unfold is_network in Hnet.
  repeat (apply orb_false_iff in Hnet as [Hnet ?]).
  rewrite Hnet. destruct (is_patch e); [done|]. by apply IH.
Qed.

(** The --verify-timeout option is parsed but never read: the command is
    the same whatever its value. *)
Lemma verify_timeout_is_not_read (argv : CLIScaleOptions)
    (timeout : option N) (contextName : string) :
  scaleCommand
    {| argv_ := argv_ argv; opt_help := opt_help argv;
       opt_debug := opt_debug argv; opt_no_verify := opt_no_verify argv;
       opt_verify_timeout := timeout |} contextName
  = scaleCommand argv contextName.
Proof. reflexivity. Qed.

(** The run of an invocation whose arguments are accepted. *)
Lemma run_accepted (ctx : CLIContext) (argv : CLIScaleOptions) (w : World)
    (dcs : list string) (min max : Bound) :
  invocation ctx argv →
  accepted argv dcs min max →
  run w (main ctx)
  = run w (Scale.scaleDeployment argv (getContextName (sh ctx))
             dcs min max).
Proof.
  intros Hinv Hacc.
  by rewrite (main_invocation _ _ Hinv), (scaleCommand_accepted _ _ _ _ _ Hacc).
Qed.

(** The run up to the saved rules, when the remote accepts them. *)
Lemma run_patched (ctx : CLIContext) (argv : CLIScaleOptions) (w : World)
    (deployment : Deployment) (dcs : list string) (min max : Bound) :
  invocation ctx argv →
  accepted argv dcs min max →
  fetches w ctx argv deployment →
  Scale.scalable deployment →
  Scale.patches w deployment dcs min max →
  run w (main ctx)
  = let r := run w (Scale.verifyScale argv (getContextName (sh ctx))
                      deployment) in
    (([Ev (GetDeploymentByIdOrHost (getContextName (sh ctx))
            (default "" (argv_ argv !! 1%nat)));
      Ev (Print (OutputLogFetched (url deployment)));
      Ev (Print (OutputDebug (scaleArgs dcs min max)));
      Ev (PatchDeploymentScale (uid deployment) (scaleArgs dcs min max)
            (url deployment));
      Ev (Print (ConsoleLogSaved dcs min max))] ++ r.1)%list, r.2).
Proof.
  intros Hinv Hacc Hfetch [Htype Hstate] Hpatch.
  rewrite (run_accepted _ _ _ _ _ _ Hinv Hacc).
  unfold Scale.scaleDeployment. run_stage.
  rewrite Hfetch. run_stage.
  rewrite !bool_decide_eq_false_2 by done. run_stage.
  by rewrite Hpatch.
Qed.

(** C9, as amended. With another token than "ls" in the identifier
    position, fewer than 3 or more than 5 positional arguments end in the
    usage error, the help text and exit code 1, before anything is parsed
    or fetched.  So do more than three tokens after the identifier, and
    so do two or more targets followed by both a min and a max. *)
Theorem arg_count_is_checked (ctx : CLIContext) (argv : CLIScaleOptions)
    (w : World) :
  invocation ctx argv →
  argv_ argv !! 1%nat ≠ Some "ls" →
  let usage :=
    ([Ev (Print (OutputError ExpectsAtLeastTwoArguments));
      Ev (Print Help); Ev NowClose], Returned 1) in
  ((length (argv_ argv) < 3 ∨ 5 < length (argv_ argv))%nat →
   run w (main ctx) = usage)
  ∧ ((3 < length (drop 2 (argv_ argv)))%nat → run w (main ctx) = usage)
  ∧ (∀ (targets : list string) (min max : string),
       drop 2 (argv_ argv) = (targets ++ [min; max])%list →
       (2 ≤ length targets)%nat →
       run w (main ctx) = usage).
Proof.
  intros Hinv Hls usage.
  assert (Hcount : (length (argv_ argv) < 3 ∨ 5 < length (argv_ argv))%nat →
                   run w (main ctx) = usage).
  { intros Hlen. rewrite (main_invocation _ _ Hinv).
    unfold Scale.scaleCommand.
    rewrite bool_decide_eq_false_2 by done.
    destruct Hlen as [Hlen|Hlen].
    - by rewrite (bool_decide_eq_true_2 (_ < 3)%nat).
    - rewrite (bool_decide_eq_true_2 (5 < _)%nat) by done.
      by rewrite orb_true_r. }
  split; [done|]. split.
  - intros Hlen. apply Hcount. rewrite length_drop in Hlen. lia.
  - intros targets min max Hsplit Htargets. apply Hcount.
    apply (f_equal length) in Hsplit.
    rewrite length_drop, length_app in Hsplit. simpl in Hsplit. lia.
Qed.

(** C2, as amended. With targets ["all"], min "auto" and max "auto"
    against a deployment of type "STATIC", the command is rejected right
    after the deployment fetch, which is its only network call; the
    scale patch is never sent. *)
Theorem static_rejected_after_fetch (ctx : CLIContext)
    (argv : CLIScaleOptions) (w : World) (deployment : Deployment) :
  invocation ctx argv →
  accepted argv ["all"] Auto Auto →
  fetches w ctx argv deployment →
  type deployment = "STATIC" →
  run w (main ctx)
  = ([Ev (GetDeploymentByIdOrHost (getContextName (sh ctx))
            (default "" (argv_ argv !! 1%nat)));
      Ev (Print (OutputLogFetched (url deployment)));
      Ev (Print (OutputError StaticDeployment));
      Ev NowClose], Returned 1)
  ∧ existsb is_patch (trace w (main ctx)) = false
  ∧ length (List.filter is_network (trace w (main ctx))) = 1%nat.
Proof.
  intros Hinv Hacc Hfetch Htype. unfold trace.
  rewrite (run_accepted _ _ _ _ _ _ Hinv Hacc).
  unfold Scale.scaleDeployment. run_stage.
  rewrite Hfetch. run_stage.
  by rewrite bool_decide_eq_true_2.
Qed.

(** C5. The rules built from the resolved targets and bounds have
    exactly the targets as keys, each with the same pair of bounds, and
    a run that gets to the patch sends these rules in its one and only
    patch call. *)
Theorem scale_spec_is_uniform (ctx : CLIContext) (argv : CLIScaleOptions)
    (w : World) (deployment : Deployment) (dcs : list string)
    (min max : Bound) :
  invocation ctx argv →
  accepted argv dcs min max →
  fetches w ctx argv deployment →
  Scale.scalable deployment →
  dom (scaleArgs dcs min max) = list_to_set dcs
  ∧ (∀ dc, dc ∈ dcs →
           scaleArgs dcs min max !! dc
           = Some {| range_min := min; range_max := max |})
  ∧ (∀ dc range, scaleArgs dcs min max !! dc = Some range →
                 range = {| range_min := min; range_max := max |})
  ∧ List.filter is_patch (trace w (main ctx))
    = [Ev (PatchDeploymentScale (uid deployment) (scaleArgs dcs min max)
             (url deployment))].
Proof.
  intros Hinv Hacc Hfetch [Htype Hstate].
  split; [apply scaleArgs_dom|].
  split; [apply scaleArgs_lookup_elem|]. split; [apply scaleArgs_lookup|].
  unfold trace. rewrite (run_accepted _ _ _ _ _ _ Hinv Hacc).
  unfold Scale.scaleDeployment, Scale.verifyScale. run_stage.
  rewrite Hfetch. run_stage.
  rewrite !bool_decide_eq_false_2 by done.
  run_cases.
Qed.

(** C6. Once the rules are saved, the poller is called exactly when
    --no-verify is absent and the deployment fetched again has type
    "NPM" or "DOCKER"; for any other type nothing is verified and the
    command returns 0. *)
Theorem verification_gate (ctx : CLIContext) (argv : CLIScaleOptions)
    (w : World) (deployment : Deployment) (dcs : list string)
    (min max : Bound) :
  invocation ctx argv →
  accepted argv dcs min max →
  fetches w ctx argv deployment →
  Scale.scalable deployment →
  Scale.patches w deployment dcs min max →
  (existsb is_verify (trace w (main ctx)) = true
   ↔ opt_no_verify argv = false
     ∧ ∃ updatedDeployment,
         refetches w ctx deployment updatedDeployment
         ∧ (type updatedDeployment = "NPM"
            ∨ type updatedDeployment = "DOCKER"))
  ∧ (∀ updatedDeployment,
       opt_no_verify argv = false →
       refetches w ctx deployment updatedDeployment →
       type updatedDeployment ≠ "NPM" →
       type updatedDeployment ≠ "DOCKER" →
       outcome w (main ctx) = Returned 0
       ∧ existsb is_verify (trace w (main ctx)) = false).
Proof.
  intros Hinv Hacc Hfetch Hscalable Hpatch. unfold trace, outcome.
  rewrite (run_patched _ _ _ _ _ _ _ Hinv Hacc Hfetch Hscalable Hpatch).
  unfold Scale.verifyScale, Scale.refetches. cbn [fst snd existsb app].
  cbn [is_verify orb].
  destruct (opt_no_verify argv); [by split; [split; [|intros []]|]|].
  run_stage.
  destruct (on_getDeploymentByIdOrThrow w _ _) as [updated|e]; run_stage.
  - split.
    + split.
      * intros Hverify. split; [done|]. exists updated. split; [done|].
        revert Hverify. run_cases; auto.
      * intros (_ & updated' & [= <-] & [Htype|Htype]);
          rewrite Htype; by run_cases.
    + intros updated' _ [= <-] Hnpm Hdocker.
      by rewrite !bool_decide_eq_false_2 by done.
  - split; [|done]. split; [done|]. by intros (_ & ? & ? & _).
Qed.

(** The run of an invocation that gets to call the poller. *)
Lemma run_verifying (ctx : CLIContext) (argv : CLIScaleOptions) (w : World)
    (deployment updatedDeployment : Deployment) (dcs : list string)
    (min max : Bound) :
  invocation ctx argv →
  accepted argv dcs min max →
  fetches w ctx argv deployment →
  Scale.scalable deployment →
  Scale.patches w deployment dcs min max →
  opt_no_verify argv = false →
  refetches w ctx deployment updatedDeployment →
  type updatedDeployment = "NPM" ∨ type updatedDeployment = "DOCKER" →
  run w (main ctx)
  = let r :=
      match on_waitVerifyDeploymentScale w (uid deployment)
              (scale updatedDeployment) with
      | Resolved Verified =>
          ([Ev (Print OutputSuccess); Ev NowClose], Returned 0)
      | Resolved (VerifyScaleTimeout timeout) =>
          ([Ev (Print (OutputError (VerificationTimedOut timeout)));
            Ev NowClose], Returned 1)
      | Rejected e => ([], Thrown e)
      end in
    (([Ev (GetDeploymentByIdOrHost (getContextName (sh ctx))
             (default "" (argv_ argv !! 1%nat)));
       Ev (Print (OutputLogFetched (url deployment)));
       Ev (Print (OutputDebug (scaleArgs dcs min max)));
       Ev (PatchDeploymentScale (uid deployment) (scaleArgs dcs min max)
             (url deployment));
       Ev (Print (ConsoleLogSaved dcs min max));
       Ev (GetDeploymentByIdOrThrow (getContextName (sh ctx))
             (uid deployment));
       Ev (WaitVerifyDeploymentScale (uid deployment)
             (scale updatedDeployment))] ++ r.1)%list, r.2).
Proof.
  intros Hinv Hacc Hfetch Hscalable Hpatch Hverify Hrefetch Htype.
  rewrite (run_patched _ _ _ _ _ _ _ Hinv Hacc Hfetch Hscalable Hpatch).
  unfold Scale.verifyScale. rewrite Hverify. run_stage.
  rewrite Hrefetch. run_stage.
  assert (bool_decide (type updatedDeployment = "NPM")
          || bool_decide (type updatedDeployment = "DOCKER") = true) as ->.
  { destruct Htype as [-> | ->]; done. }
  run_stage.
  by destruct (on_waitVerifyDeploymentScale w _ _) as [[|timeout]|e].
Qed.


End CommandFacts.

(** ** The modelled poller *)

Section Poller.

Variable snapshots : nat → Util.Snapshot.
Variable scale : DeploymentScaleArgs.
Variable interval : positive.
Variable timeout : N.

Lemma satisfies_spec (b : Bound) (n : N) :
  Util.satisfies b n = true ↔ Util.meets b n.
Proof.
  destruct b as [k|]; simpl.
  - apply N.eqb_eq.
  - apply N.leb_le.
Qed.

Lemma converged_spec (snapshot : Util.Snapshot) :
  Util.converged scale snapshot = true
  ↔ ∀ dc range, scale !! dc = Some range →
      ∃ st, snapshot !! dc = Some st
            ∧ Util.satisfies (range_min range) (Util.reported_min st) = true
            ∧ Util.satisfies (range_max range) (Util.reported_max st) = true.
Proof.
  unfold Util.converged. rewrite forallb_forall. split.
  - intros Hall dc range Hdc.
    apply elem_of_map_to_list, list_elem_of_In, Hall in Hdc.
    unfold Util.targetConverged in Hdc. simpl in Hdc.
    destruct (snapshot !! dc) as [st|]; [|done].
    apply andb_true_iff in Hdc. by exists st.
  - intros Hall [dc range] Hin.
    apply list_elem_of_In, elem_of_map_to_list, Hall in Hin
      as (st & Hst & Hmin & Hmax).
    unfold Util.targetConverged. simpl. by rewrite Hst, Hmin, Hmax.
Qed.

(** With enough rounds left to reach the deadline the loop ends, and it
    ends with [Verified] exactly when a read made before the deadline
    has converged. *)
Lemma poll_spec (fuel k : nat) (elapsed : N) :
  (elapsed ≤ timeout)%N →
  (timeout < elapsed + N.of_nat fuel * Npos interval)%N →
  (Util.poll snapshots scale interval timeout fuel k elapsed
   = Some Verified
   ∧ ∃ n, (elapsed + N.of_nat n * Npos interval ≤ timeout)%N
          ∧ Util.converged scale (snapshots (k + n)%nat) = true)
  ∨ (Util.poll snapshots scale interval timeout fuel k elapsed
     = Some (VerifyScaleTimeout timeout)
     ∧ ∀ n, (elapsed + N.of_nat n * Npos interval ≤ timeout)%N →
            Util.converged scale (snapshots (k + n)%nat) = false).
Proof.
  revert k elapsed.
  induction fuel as [|fuel IH]; intros k elapsed Hle Hfuel; [lia|].
  simpl. destruct (Util.converged scale (snapshots k)) eqn:Hk.
  - left. split; [done|]. exists 0%nat.
    rewrite Nat.add_0_r. split; [lia|done].
  - destruct (N.ltb_spec timeout (elapsed + Npos interval)) as [Hout|Hin].
    + right. split; [done|]. intros n Hn.
      destruct n as [|n]; [by rewrite Nat.add_0_r|].
      rewrite Nat2N.inj_succ, N.mul_succ_l in Hn. lia.
    + destruct (IH (S k) (elapsed + Npos interval)%N) as
        [[Hpoll (n & Hn & Hconv)]|[Hpoll Hnone]]; [done|lia|..].
      * left. split; [done|]. exists (S n).
        rewrite Nat.add_succ_r. split; [lia|done].
      * right. split; [done|]. intros [|n] Hn.
        -- by rewrite Nat.add_0_r.
        -- rewrite Nat.add_succ_r. apply Hnone. lia.
Qed.

Lemma rounds_enough :
  (timeout < N.of_nat (Util.rounds interval timeout) * Npos interval)%N.
Proof.
  unfold Util.rounds. rewrite Nat2N.inj_succ, N2Nat.id, N.mul_comm.
  by apply N.mul_succ_div_gt.
Qed.

(** The poller always gives a result: [Verified] when some read within
    the deadline has converged, the timeout otherwise. *)
Lemma waitVerifyDeploymentScale_spec :
  (Util.waitVerifyDeploymentScale snapshots interval timeout scale
   = Verified
   ∧ ∃ n, (N.of_nat n * Npos interval ≤ timeout)%N
          ∧ Util.converged scale (snapshots n) = true)
  ∨ (Util.waitVerifyDeploymentScale snapshots interval timeout scale
     = VerifyScaleTimeout timeout
     ∧ ∀ n, (N.of_nat n * Npos interval ≤ timeout)%N →
            Util.converged scale (snapshots n) = false).
Proof.
  unfold Util.waitVerifyDeploymentScale.
  destruct (poll_spec (Util.rounds interval timeout) 0 0%N)
    as [[-> Hsome]|[-> Hnone]];
    [lia|pose proof rounds_enough; lia|by left|by right].
Qed.

Lemma waitVerifyDeploymentScale_verified :
  Util.waitVerifyDeploymentScale snapshots interval timeout scale
  = Verified
  ↔ ∃ n, (N.of_nat n * Npos interval ≤ timeout)%N
         ∧ Util.converged scale (snapshots n) = true.
Proof.
  destruct waitVerifyDeploymentScale_spec as [[-> Hsome]|[-> Hnone]].
  - done.
  - split; [done|]. intros (n & Hn & Hconv).
    by rewrite (Hnone n Hn) in Hconv.
Qed.

Lemma waitVerifyDeploymentScale_timeout :
  (∀ n, (N.of_nat n * Npos interval ≤ timeout)%N →
        Util.converged scale (snapshots n) = false) →
  Util.waitVerifyDeploymentScale snapshots interval timeout scale
  = VerifyScaleTimeout timeout.
Proof.
  intros Hnone.
  destruct waitVerifyDeploymentScale_spec as [[_ (n & Hn & Hconv)]|[-> _]];
    [|done].
  by rewrite (Hnone n Hn) in Hconv.
Qed.

End Poller.

(** ** The command with the modelled parsers and poller *)

Section UtilFacts.

Variable getArgs : list string → string + CLIScaleOptions.
Variable getContextName : ShConfig → string.

Lemma getDCsFromArgs_all (regionsAndDCs args : list string) :
  "all" ∈ Util.targetTokens args →
  (∃ t, t ∈ Util.targetTokens args ∧ t ≠ "all") →
  Util.getDCsFromArgs regionsAndDCs args = InvalidAllForScale.
Proof.
  intros Hall (t & Ht & Hother). unfold Util.getDCsFromArgs.
  rewrite bool_decide_eq_true_2 by done.
  assert (existsb (λ t, negb (bool_decide (t = "all")))
            (Util.targetTokens args) = true) as ->; [|done].
  apply existsb_exists. exists t. split; [by apply list_elem_of_In|].
  by rewrite bool_decide_eq_false_2.
Qed.

(** C8. When the target tokens hold "all" together with another token,
    target resolution fails with InvalidAllForScale and the command
    returns 1 without a network call; past the "ls" and count checks it
    prints that "all" cannot be used alongside other identifiers. *)
Theorem all_excludes_other_targets (regionsAndDCs : list string)
    (getMinFromArgs : list string → MinResult)
    (getMaxFromArgs : list string → MaxResult)
    (ctx : CLIContext) (argv : CLIScaleOptions) (w : World) :
  let main :=
    Scale.main getArgs getContextName
      (Util.getDCsFromArgs regionsAndDCs) getMinFromArgs getMaxFromArgs in
  Scale.invocation getArgs ctx argv →
  "all" ∈ Util.targetTokens (argv_ argv) →
  (∃ t, t ∈ Util.targetTokens (argv_ argv) ∧ t ≠ "all") →
  Util.getDCsFromArgs regionsAndDCs (argv_ argv) = InvalidAllForScale
  ∧ outcome w (main ctx) = Returned 1
  ∧ existsb is_network (trace w (main ctx)) = false
  ∧ (argv_ argv !! 1%nat ≠ Some "ls" →
     (3 ≤ length (argv_ argv) ≤ 5)%nat →
     trace w (main ctx)
     = [Ev (Print (OutputError AllAlongsideOthers)); Ev NowClose]).
Proof.
  intros main Hinv Hall Hother.
  pose proof (getDCsFromArgs_all regionsAndDCs _ Hall Hother) as Hdcs.
  split; [done|].
  destruct (run_parsing_fails getArgs getContextName
              (Util.getDCsFromArgs regionsAndDCs) getMinFromArgs
              getMaxFromArgs ctx argv w Hinv) as [Hout Hnet];
    [by left|].
  split; [done|]. split; [done|]. intros Hls [Hlo Hhi].
  unfold trace, main. rewrite (main_invocation _ _ _ _ _ _ _ Hinv).
  unfold Scale.scaleCommand. rewrite Hdcs.
  rewrite bool_decide_eq_false_2 by done.
  rewrite (bool_decide_eq_false_2 (_ < 3)%nat) by lia.
  by rewrite (bool_decide_eq_false_2 (5 < _)%nat) by lia.
Qed.

(** The modelled bound parsers take each token on its own: two tokens
    that are a valid min and a valid max are accepted whatever their
    order. *)
Lemma bound_tokens_are_not_compared (args : list string)
    (tmin tmax : string) (min max : Bound) :
  Util.boundTokens args = [tmin; tmax] →
  Util.toMin tmin = Some min →
  Util.toMax tmax = Some max →
  Util.getMinFromArgs args = Min min ∧ Util.getMaxFromArgs args = Max max.
Proof.
  intros Hbounds Hmin Hmax.
  unfold Util.getMinFromArgs, Util.getMaxFromArgs.
  by rewrite Hbounds, Hmin, Hmax.
Qed.

(** C7. When no read made before the deadline has converged, the poller
    answers with VerifyScaleTimeout carrying its configured timeout; the
    command prints the timeout error with that duration, closes the
    client and returns 1: the promise is not rejected. *)
Theorem verification_timeout_is_reported
    (getDCsFromArgs : list string → DCsResult)
    (getMinFromArgs : list string → MinResult)
    (getMaxFromArgs : list string → MaxResult)
    (ctx : CLIContext) (argv : CLIScaleOptions) (r : Util.Remote)
    (deployment updatedDeployment : Deployment) (dcs : list string)
    (min max : Bound) :
  let main :=
    Scale.main getArgs getContextName getDCsFromArgs getMinFromArgs
      getMaxFromArgs in
  let w := Util.world r in
  Scale.invocation getArgs ctx argv →
  Scale.accepted getDCsFromArgs getMinFromArgs getMaxFromArgs
    argv dcs min max →
  Scale.fetches getContextName w ctx argv deployment →
  Scale.scalable deployment →
  Scale.patches w deployment dcs min max →
  opt_no_verify argv = false →
  Scale.refetches getContextName w ctx deployment updatedDeployment →
  type updatedDeployment = "NPM" ∨ type updatedDeployment = "DOCKER" →
  (∀ n, (N.of_nat n * Npos (Util.poll_interval r)
         ≤ Util.verify_timeout r)%N →
        Util.converged (scale updatedDeployment)
          (Util.remote_snapshots r (uid deployment) n) = false) →
  on_waitVerifyDeploymentScale w (uid deployment) (scale updatedDeployment)
  = Resolved (VerifyScaleTimeout (Util.verify_timeout r))
  ∧ outcome w (main ctx) = Returned 1
  ∧ ∃ before,
      trace w (main ctx)
      = (before
         ++ [Ev (Print (OutputError
                          (VerificationTimedOut (Util.verify_timeout r))));
             Ev NowClose])%list.
Proof.
  intros main w Hinv Hacc Hfetch Hscalable Hpatch Hverify Hrefetch Htype
    Hnever.
  assert (on_waitVerifyDeploymentScale w (uid deployment)
            (scale updatedDeployment)
          = Resolved (VerifyScaleTimeout (Util.verify_timeout r))) as Hwait.
  { simpl. f_equal. by apply waitVerifyDeploymentScale_timeout. }
  split; [done|]. unfold outcome, trace, main.
  rewrite (run_verifying _ _ _ _ _ _ _ _ _ _ _ _ _ Hinv Hacc Hfetch
             Hscalable Hpatch Hverify Hrefetch Htype).
  rewrite Hwait. split; [done|]. by eexists.
Qed.

(** C1, as amended. In a run that gets to verification the poller is
    called once, with the rules of the deployment fetched again (not
    with the rules that were sent), and the command reports the scale as
    verified exactly when, at some read made before the deadline, every
    target of those rules has a reported state that meets both bounds:
    equal to a concrete integer, any count for 'auto'. *)
Theorem poller_checks_updated_scale
    (getDCsFromArgs : list string → DCsResult)
    (getMinFromArgs : list string → MinResult)
    (getMaxFromArgs : list string → MaxResult)
    (ctx : CLIContext) (argv : CLIScaleOptions) (r : Util.Remote)
    (deployment updatedDeployment : Deployment) (dcs : list string)
    (min max : Bound) :
  let main :=
    Scale.main getArgs getContextName getDCsFromArgs getMinFromArgs
      getMaxFromArgs in
  let w := Util.world r in
  Scale.invocation getArgs ctx argv →
  Scale.accepted getDCsFromArgs getMinFromArgs getMaxFromArgs
    argv dcs min max →
  Scale.fetches getContextName w ctx argv deployment →
  Scale.scalable deployment →
  Scale.patches w deployment dcs min max →
  opt_no_verify argv = false →
  Scale.refetches getContextName w ctx deployment updatedDeployment →
  type updatedDeployment = "NPM" ∨ type updatedDeployment = "DOCKER" →
  List.filter is_verify (trace w (main ctx))
  = [Ev (WaitVerifyDeploymentScale (uid deployment)
           (scale updatedDeployment))]
  ∧ (existsb is_success (trace w (main ctx)) = true
     ↔ ∃ n, (N.of_nat n * Npos (Util.poll_interval r)
             ≤ Util.verify_timeout r)%N
            ∧ ∀ dc range,
                scale updatedDeployment !! dc = Some range →
                ∃ st,
                  Util.remote_snapshots r (uid deployment) n !! dc = Some st
                  ∧ Util.meets (range_min range) (Util.reported_min st)
                  ∧ Util.meets (range_max range) (Util.reported_max st)).
Proof.
  intros main w Hinv Hacc Hfetch Hscalable Hpatch Hverify Hrefetch Htype.
  unfold trace, main.
  rewrite (run_verifying _ _ _ _ _ _ _ _ _ _ _ _ _ Hinv Hacc Hfetch
             Hscalable Hpatch Hverify Hrefetch Htype).
  cbn [on_waitVerifyDeploymentScale w Util.world].
  pose proof (waitVerifyDeploymentScale_verified
                (Util.remote_snapshots r (uid deployment))
                (scale updatedDeployment) (Util.poll_interval r)
                (Util.verify_timeout r)) as Hverified.
  assert ((∃ n, (N.of_nat n * Npos (Util.poll_interval r)
                 ≤ Util.verify_timeout r)%N
                ∧ Util.converged (scale updatedDeployment)
                    (Util.remote_snapshots r (uid deployment) n) = true)
          ↔ ∃ n, (N.of_nat n * Npos (Util.poll_interval r)
                  ≤ Util.verify_timeout r)%N
                 ∧ ∀ dc range,
                     scale updatedDeployment !! dc = Some range →
                     ∃ st,
                       Util.remote_snapshots r (uid deployment) n !! dc
                       = Some st
                       ∧ Util.meets (range_min range) (Util.reported_min st)
                       ∧ Util.meets (range_max range) (Util.reported_max st))
    as Hmeets.
  { apply exist_proper. intros n. apply and_iff_compat_l.
    rewrite converged_spec.
    by setoid_rewrite satisfies_spec. }
  rewrite <- Hmeets, <- Hverified.
  destruct (Util.waitVerifyDeploymentScale _ _ _ _) as [|timeout]; done.
Qed.

End UtilFacts.

(** ** Every run of the command *)

(** Unfolds the whole command and splits on every test and result, in the
    goal and in the hypotheses. *)
Ltac run_stage_all :=
  cbn [run trace outcome mbind mret Prog_bind Prog_ret bind call await
       output_error now_close respond fst snd] in *.

Ltac all_runs :=
  unfold Scale.main, Scale.scaleCommand, Scale.scaleDeployment,
    Scale.verifyScale, trace, outcome in *;
  repeat (run_stage_all;
          first [ case_bool_decide | case_match ];
          simplify_eq/=);
  run_stage_all.

Section RunFacts.

Variable getArgs : list string → string + CLIScaleOptions.
Variable getContextName : ShConfig → string.
Variable getDCsFromArgs : list string → DCsResult.
Variable getMinFromArgs : list string → MinResult.
Variable getMaxFromArgs : list string → MaxResult.

Local Abbreviation main :=
  (Scale.main getArgs getContextName getDCsFromArgs getMinFromArgs
     getMaxFromArgs).
Local Abbreviation invocation := (Scale.invocation getArgs).
Local Abbreviation accepted :=
  (Scale.accepted getDCsFromArgs getMinFromArgs getMaxFromArgs).
Local Abbreviation fetches := (Scale.fetches getContextName).
Local Abbreviation refetches := (Scale.refetches getContextName).

(** X1. The command returns 2 exactly when the arguments tokenize and
    --help is set; it then prints the help text and nothing else: no
    login is looked up, no client is closed, nothing goes over the
    network. *)
Theorem help_is_exit_code_2 (ctx : CLIContext) (w : World) :
  (outcome w (main ctx) = Returned 2
   ↔ ∃ opts, getArgs (drop 2 (argv ctx)) = inr opts ∧ opt_help opts = true)
  ∧ (outcome w (main ctx) = Returned 2 →
     trace w (main ctx) = [Ev (Print Help)]).
Proof.
  split.
  - split.
    + intros Hout. all_runs; try done; eauto.
    + intros (opts & Hargs & Hhelp). unfold outcome, Scale.main.
      by rewrite Hargs, Hhelp.
  - intros Hout. all_runs; done.
Qed.

(** X2. The promise of the command rejects only in two ways: no login
    for provider "sh" is found (a TypeError, before anything is printed),
    or the last call made is a network call whose promise rejected, with
    the same exception. *)
Theorem rejection_comes_from_a_call (ctx : CLIContext) (w : World)
    (e : string) :
  outcome w (main ctx) = Thrown e →
  (trace w (main ctx) = [] ∧ e = "TypeError"
   ∧ find (λ item, bool_decide (provider item = "sh")) (credentials ctx)
     = None)
  ∨ ∃ ev, last (trace w (main ctx)) = Some ev ∧ rejects w ev e.
Proof.
  intros Hout.
  all_runs; try done;
    first [ by left
          | right; eexists; split; [reflexivity|simpl; eassumption] ].
Qed.

(** X3. Whenever an invocation returns an exit code, the client has been
    closed exactly once, and closing it is the last thing the command
    did. *)
Theorem client_is_closed_on_return (ctx : CLIContext)
    (argv : CLIScaleOptions) (w : World) (code : Z) :
  invocation ctx argv →
  outcome w (main ctx) = Returned code →
  last (trace w (main ctx)) = Some (Ev NowClose)
  ∧ length (List.filter is_close (trace w (main ctx))) = 1%nat.
Proof.
  intros Hinv Hout. unfold trace, outcome in *.
  rewrite (main_invocation _ _ _ _ _ _ _ Hinv) in *.
  all_runs; done.
Qed.

(** X4. When the promise of an invocation rejects, the client is never
    closed: no path of the command closes it after a rejected call. *)
Theorem client_is_left_open_on_rejection (ctx : CLIContext)
    (argv : CLIScaleOptions) (w : World) (e : string) :
  invocation ctx argv →
  outcome w (main ctx) = Thrown e →
  existsb is_close (trace w (main ctx)) = false.
Proof.
  intros Hinv Hout. unfold trace, outcome in *.
  rewrite (main_invocation _ _ _ _ _ _ _ Hinv) in *.
  all_runs; done.
Qed.

(** X5. An invocation returns 0 or 1 only; it prints no error when it
    returns 0 and exactly one error when it returns 1. *)
Theorem one_error_per_failure (ctx : CLIContext) (argv : CLIScaleOptions)
    (w : World) (code : Z) :
  invocation ctx argv →
  outcome w (main ctx) = Returned code →
  (code = 0 ∧ List.filter is_error (trace w (main ctx)) = [])
  ∨ (code = 1 ∧ length (List.filter is_error (trace w (main ctx))) = 1%nat).
Proof.
  intros Hinv Hout. unfold trace, outcome in *.
  rewrite (main_invocation _ _ _ _ _ _ _ Hinv) in *.
  all_runs; auto.
Qed.

(** X6. In every run the network calls come in the order fetch, patch,
    fetch again, poll, each at most once and none without the ones
    before it. *)
Theorem network_calls_are_ordered (ctx : CLIContext) (w : World) :
  omap network_call (trace w (main ctx))
  `prefix_of` [FetchCall; PatchCall; RefetchCall; VerifyCall].
Proof. all_runs; by eexists. Qed.

(** X7. An invocation makes a network call exactly when its arguments
    pass all the local checks, and the first call is then the fetch of
    the deployment named at position 1. *)
Theorem network_iff_accepted (ctx : CLIContext) (argv : CLIScaleOptions)
    (w : World) :
  invocation ctx argv →
  (existsb is_network (trace w (main ctx)) = true
   ↔ ∃ dcs min max, accepted argv dcs min max)
  ∧ (existsb is_network (trace w (main ctx)) = true →
     head (List.filter is_network (trace w (main ctx)))
     = Some (Ev (GetDeploymentByIdOrHost (getContextName (sh ctx))
                   (default "" (argv_ argv !! 1%nat))))).
Proof.
  intros Hinv. unfold trace.
  split; [split|].
  - rewrite (main_invocation _ _ _ _ _ _ _ Hinv).
    intros Hnet. unfold Scale.accepted.
    all_runs; try done; eexists _, _, _; repeat split; eauto; lia.
  - intros (dcs & min & max & Hacc).
    by rewrite (run_accepted _ _ _ _ _ _ _ _ _ _ _ Hinv Hacc).
  - rewrite (main_invocation _ _ _ _ _ _ _ Hinv).
    intros Hnet. all_runs; done.
Qed.

(** X8. An invocation returns 0 exactly when its arguments pass the local
    checks, the fetched deployment is scalable, the remote accepts the
    patch, and then either --no-verify is set, or the deployment fetched
    again is neither "NPM" nor "DOCKER", or the poller does not time
    out. *)
Theorem success_iff (ctx : CLIContext) (argv : CLIScaleOptions)
    (w : World) :
  invocation ctx argv →
  outcome w (main ctx) = Returned 0
  ↔ ∃ dcs min max deployment,
      accepted argv dcs min max
      ∧ fetches w ctx argv deployment
      ∧ Scale.scalable deployment
      ∧ Scale.patches w deployment dcs min max
      ∧ (opt_no_verify argv = true
         ∨ ∃ updatedDeployment,
             refetches w ctx deployment updatedDeployment
             ∧ ((type updatedDeployment ≠ "NPM"
                 ∧ type updatedDeployment ≠ "DOCKER")
                ∨ on_waitVerifyDeploymentScale w (uid deployment)
                    (scale updatedDeployment) = Resolved Verified)).
Proof.
  intros Hinv. unfold outcome. split.
  - rewrite (main_invocation _ _ _ _ _ _ _ Hinv).
    unfold Scale.accepted, Scale.fetches, Scale.scalable, Scale.patches,
      Scale.refetches.
    intros Hout.
    all_runs; try done; eexists _, _, _, _;
      (split; [repeat split; eauto; lia|]);
      (split; [reflexivity|]); (split; [done|]); (split; [eassumption|]);
      eauto 10.
  - intros (dcs & min & max & deployment & Hacc & Hfetch & Hscalable
            & Hpatch & Hverify).
    rewrite (run_patched _ _ _ _ _ _ _ _ _ _ _ _ Hinv Hacc Hfetch Hscalable
               Hpatch).
    unfold Scale.verifyScale, Scale.refetches in *. cbn [snd].
    destruct Hverify as [->|(updated & Hrefetch & Hverify)]; [done|].
    destruct (opt_no_verify argv); [done|]. run_stage.
    rewrite Hrefetch. run_stage.
    destruct Hverify as [[Hnpm Hdocker]|Hverified].
    + by rewrite !bool_decide_eq_false_2 by done.
    + destruct (bool_decide (type updated = "NPM")
                || bool_decide (type updated = "DOCKER")); [|done].
      run_stage. by rewrite Hverified.
Qed.

(** X9. When the fetch resolves to an error, the command prints one
    error, closes the client and returns 1 without any other call.  A
    permission error is reported with the id and context the remote
    gave; a missing deployment with the identifier as typed and the local
    context name. *)
Theorem fetch_error_stops_the_command (ctx : CLIContext)
    (argv : CLIScaleOptions) (w : World) (dcs : list string)
    (min max : Bound) (result : FetchResult) :
  invocation ctx argv →
  accepted argv dcs min max →
  on_getDeploymentByIdOrHost w (getContextName (sh ctx))
    (default "" (argv_ argv !! 1%nat)) = Resolved result →
  (∀ deployment, result ≠ Fetched deployment) →
  run w (main ctx)
  = ([Ev (GetDeploymentByIdOrHost (getContextName (sh ctx))
            (default "" (argv_ argv !! 1%nat)));
      Ev (Print (OutputError
                   match result with
                   | DeploymentPermissionDenied id context =>
                       NoPermission id context
                   | _ =>
                       FailedToFindDeployment
                         (default "" (argv_ argv !! 1%nat))
                         (getContextName (sh ctx))
                   end));
      Ev NowClose], Returned 1).
Proof.
  intros Hinv Hacc Hfetch Herror.
  rewrite (run_accepted _ _ _ _ _ _ _ _ _ _ _ Hinv Hacc).
  unfold Scale.scaleDeployment. run_stage. rewrite Hfetch.
  destruct result as [deployment| |]; [by destruct (Herror deployment)|..];
    done.
Qed.

(** X10. A fetched deployment of type "STATIC" or in state "ERROR" is
    refused right after the fetch, whatever the targets and bounds: one
    error, the client closed, exit code 1, no patch.  When both hold the
    error printed is the one for static deployments. *)
Theorem unscalable_deployment_is_refused (ctx : CLIContext)
    (argv : CLIScaleOptions) (w : World) (dcs : list string)
    (min max : Bound) (deployment : Deployment) :
  invocation ctx argv →
  accepted argv dcs min max →
  fetches w ctx argv deployment →
  type deployment = "STATIC" ∨ state deployment = "ERROR" →
  run w (main ctx)
  = ([Ev (GetDeploymentByIdOrHost (getContextName (sh ctx))
            (default "" (argv_ argv !! 1%nat)));
      Ev (Print (OutputLogFetched (url deployment)));
      Ev (Print (OutputError
                   (if bool_decide (type deployment = "STATIC")
                    then StaticDeployment else ErrorState)));
      Ev NowClose], Returned 1).
Proof.
  intros Hinv Hacc Hfetch Hrefused.
  rewrite (run_accepted _ _ _ _ _ _ _ _ _ _ _ Hinv Hacc).
  unfold Scale.scaleDeployment. run_stage. rewrite Hfetch. run_stage.
  case_bool_decide as Htype; [done|].
  destruct Hrefused as [Hstatic|Hstate]; [done|].
  by rewrite bool_decide_eq_true_2.
Qed.

(** X11. When the remote refuses the patch, the command prints the error
    of that refusal (with the plan limit the remote gave), returns 1, and
    neither fetches the deployment again nor polls. *)
Theorem patch_refusal_stops_the_command (ctx : CLIContext)
    (argv : CLIScaleOptions) (w : World) (dcs : list string)
    (min max : Bound) (deployment : Deployment) (result : PatchResult) :
  invocation ctx argv →
  accepted argv dcs min max →
  fetches w ctx argv deployment →
  Scale.scalable deployment →
  on_patchDeploymentScale w (uid deployment) (scaleArgs dcs min max)
    (url deployment) = Resolved result →
  result ≠ Patched →
  outcome w (main ctx) = Returned 1
  ∧ omap network_call (trace w (main ctx)) = [FetchCall; PatchCall]
  ∧ List.filter is_error (trace w (main ctx))
    = [Ev (Print (OutputError
                    match result with
                    | ForbiddenScaleMinInstances m => MinInstancesPlanLimit m
                    | ForbiddenScaleMaxInstances m => MaxInstancesPlanLimit m
                    | InvalidScaleMinMaxRelation => MinHigherThanMax
                    | _ => NoMinOnCloudV2
                    end))].
Proof.
  intros Hinv Hacc Hfetch [Htype Hstate] Hpatch Hrefused.
  unfold trace, outcome.
  rewrite (run_accepted _ _ _ _ _ _ _ _ _ _ _ Hinv Hacc).
  unfold Scale.scaleDeployment. run_stage. rewrite Hfetch. run_stage.
  rewrite !bool_decide_eq_false_2 by done. run_stage. rewrite Hpatch.
  by destruct result.
Qed.

(** X12. With --no-verify an accepted patch ends the command: the client
    is closed and 0 is returned, without fetching the deployment again and
    without polling. *)
Theorem no_verify_skips_the_second_fetch (ctx : CLIContext)
    (argv : CLIScaleOptions) (w : World) (dcs : list string)
    (min max : Bound) (deployment : Deployment) :
  invocation ctx argv →
  accepted argv dcs min max →
  fetches w ctx argv deployment →
  Scale.scalable deployment →
  Scale.patches w deployment dcs min max →
  opt_no_verify argv = true →
  run w (main ctx)
  = ([Ev (GetDeploymentByIdOrHost (getContextName (sh ctx))
            (default "" (argv_ argv !! 1%nat)));
      Ev (Print (OutputLogFetched (url deployment)));
      Ev (Print (OutputDebug (scaleArgs dcs min max)));
      Ev (PatchDeploymentScale (uid deployment) (scaleArgs dcs min max)
            (url deployment));
      Ev (Print (ConsoleLogSaved dcs min max));
      Ev NowClose], Returned 0).
Proof.
  intros Hinv Hacc Hfetch Hscalable Hpatch Hskip.
  rewrite (run_patched _ _ _ _ _ _ _ _ _ _ _ _ Hinv Hacc Hfetch Hscalable
             Hpatch).
  unfold Scale.verifyScale. by rewrite Hskip.
Qed.

(** X13. In a run that gets to the poller, the four network calls are the
    fetch of the identifier as typed and then the patch, the second fetch
    and the poll, all three addressed to the uid of the deployment fetched
    first; the result of the poll alone decides how the command ends: 0
    when verified, 1 on a timeout, a rejection when the poll rejects. *)
Theorem poll_result_decides (ctx : CLIContext) (argv : CLIScaleOptions)
    (w : World) (deployment updatedDeployment : Deployment)
    (dcs : list string) (min max : Bound) :
  invocation ctx argv →
  accepted argv dcs min max →
  fetches w ctx argv deployment →
  Scale.scalable deployment →
  Scale.patches w deployment dcs min max →
  opt_no_verify argv = false →
  refetches w ctx deployment updatedDeployment →
  type updatedDeployment = "NPM" ∨ type updatedDeployment = "DOCKER" →
  List.filter is_network (trace w (main ctx))
  = [Ev (GetDeploymentByIdOrHost (getContextName (sh ctx))
           (default "" (argv_ argv !! 1%nat)));
     Ev (PatchDeploymentScale (uid deployment) (scaleArgs dcs min max)
           (url deployment));
     Ev (GetDeploymentByIdOrThrow (getContextName (sh ctx))
           (uid deployment));
     Ev (WaitVerifyDeploymentScale (uid deployment)
           (scale updatedDeployment))]
  ∧ outcome w (main ctx)
    = match on_waitVerifyDeploymentScale w (uid deployment)
              (scale updatedDeployment) with
      | Resolved Verified => Returned 0
      | Resolved (VerifyScaleTimeout _) => Returned 1
      | Rejected e => Thrown e
      end.
Proof.
  intros Hinv Hacc Hfetch Hscalable Hpatch Hverify Hrefetch Htype.
  unfold trace, outcome.
  rewrite (run_verifying _ _ _ _ _ _ _ _ _ _ _ _ _ Hinv Hacc Hfetch
             Hscalable Hpatch Hverify Hrefetch Htype).
  by destruct (on_waitVerifyDeploymentScale w _ _) as [[|timeout]|e].
Qed.

(** X14. The --verify-timeout option is parsed and never read: two
    invocations with the same login, team and API url that agree on the
    positional arguments, on --no-verify and on --debug run alike,
    whatever --verify-timeout says. *)
Theorem verify_timeout_changes_nothing (ctx ctx' : CLIContext)
    (argv argv' : CLIScaleOptions) (w : World) :
  invocation ctx argv →
  invocation ctx' argv' →
  credentials ctx = credentials ctx' →
  sh ctx = sh ctx' →
  apiUrl ctx = apiUrl ctx' →
  argv_ argv = argv_ argv' →
  opt_no_verify argv = opt_no_verify argv' →
  opt_debug argv = opt_debug argv' →
  run w (main ctx) = run w (main ctx').
Proof.
  intros Hinv Hinv' _ Hsh _ Hpositional Hskip _.
  rewrite (main_invocation _ _ _ _ _ _ _ Hinv),
    (main_invocation _ _ _ _ _ _ _ Hinv'), Hsh.
  destruct argv, argv'. simpl in *. by subst.
Qed.

(** X17. When the second fetch rejects, the command rejects with the
    same exception after the patch has been sent and reported as saved:
    the rules are applied, no exit code is returned, nothing is polled and
    the client stays open. *)
Theorem second_fetch_rejection_is_not_caught (ctx : CLIContext)
    (argv : CLIScaleOptions) (w : World) (dcs : list string)
    (min max : Bound) (deployment : Deployment) (e : string) :
  invocation ctx argv →
  accepted argv dcs min max →
  fetches w ctx argv deployment →
  Scale.scalable deployment →
  Scale.patches w deployment dcs min max →
  opt_no_verify argv = false →
  on_getDeploymentByIdOrThrow w (getContextName (sh ctx)) (uid deployment)
  = Rejected e →
  run w (main ctx)
  = ([Ev (GetDeploymentByIdOrHost (getContextName (sh ctx))
            (default "" (argv_ argv !! 1%nat)));
      Ev (Print (OutputLogFetched (url deployment)));
      Ev (Print (OutputDebug (scaleArgs dcs min max)));
      Ev (PatchDeploymentScale (uid deployment) (scaleArgs dcs min max)
            (url deployment));
      Ev (Print (ConsoleLogSaved dcs min max));
      Ev (GetDeploymentByIdOrThrow (getContextName (sh ctx))
            (uid deployment))], Thrown e).
Proof.
  intros Hinv Hacc Hfetch Hscalable Hpatch Hverify Hrefetch.
  rewrite (run_patched _ _ _ _ _ _ _ _ _ _ _ _ Hinv Hacc Hfetch Hscalable
             Hpatch).
  unfold Scale.verifyScale. rewrite Hverify. run_stage.
  by rewrite Hrefetch.
Qed.

End RunFacts.

(** * Sample runs *)

(** Evaluates a closed side condition of a sample run. *)
Ltac evaluated :=
  first [ by vm_compute
        | by vm_compute; eexists
        | by vm_compute; auto
        | by apply list_elem_of_In; vm_compute; auto
        | vm_compute; lia ].

Ltac sample_invocation := repeat split; evaluated.

Lemma ls_is_deprecated_witness :
  run (Util.world (sampleRemote "NPM" Patched ∅ (λ _, ∅)))
    (command (sampleContext ["ls"; "sfo"]))
  = ([Ev (Print (OutputError DeprecatedLs)); Ev NowClose], Returned 1).
Proof.
  apply (ls_is_deprecated Util.getArgs Util.getContextName
           (Util.getDCsFromArgs sampleRegionsAndDCs)
           Util.getMinFromArgs Util.getMaxFromArgs
           (sampleContext ["ls"; "sfo"]) (sampleOptions ["ls"; "sfo"]));
    [sample_invocation|evaluated].
Defined.

Lemma parse_failure_is_local_witness :
  let w := Util.world (sampleRemote "NPM" Patched ∅ (λ _, ∅)) in
  let ctx := sampleContext ["my-deployment-123.now.sh"; "sfo"; "x1"] in
  outcome w (command ctx) = Returned 1
  ∧ existsb is_network (trace w (command ctx)) = false
  ∧ existsb is_fetch (trace w (command ctx)) = false
  ∧ existsb is_patch (trace w (command ctx)) = false.
Proof.
  apply (parse_failure_is_local Util.getArgs Util.getContextName
           (Util.getDCsFromArgs sampleRegionsAndDCs)
           Util.getMinFromArgs Util.getMaxFromArgs
           (sampleContext ["my-deployment-123.now.sh"; "sfo"; "x1"])
           (sampleOptions ["my-deployment-123.now.sh"; "sfo"; "x1"]));
    [sample_invocation|].
  right. left. exists "x1". evaluated.
Defined.

Lemma arg_count_is_checked_witness :
  let w := Util.world (sampleRemote "NPM" Patched ∅ (λ _, ∅)) in
  let ctx :=
    sampleContext ["my-deployment-123.now.sh"; "sfo"; "bru"; "0"; "1"] in
  let usage :=
    ([Ev (Print (OutputError ExpectsAtLeastTwoArguments));
      Ev (Print Help); Ev NowClose], Returned 1) in
  ((length (argv_ (sampleOptions
              ["my-deployment-123.now.sh"; "sfo"; "bru"; "0"; "1"])) < 3
    ∨ 5 < length (argv_ (sampleOptions
              ["my-deployment-123.now.sh"; "sfo"; "bru"; "0"; "1"])))%nat →
   run w (command ctx) = usage)
  ∧ ((3 < length (drop 2 (argv_ (sampleOptions
              ["my-deployment-123.now.sh"; "sfo"; "bru"; "0"; "1"]))))%nat →
     run w (command ctx) = usage)
  ∧ (∀ (targets : list string) (min max : string),
       drop 2 (argv_ (sampleOptions
              ["my-deployment-123.now.sh"; "sfo"; "bru"; "0"; "1"]))
       = (targets ++ [min; max])%list →
       (2 ≤ length targets)%nat →
       run w (command ctx) = usage).
Proof.
  apply (arg_count_is_checked Util.getArgs Util.getContextName
           (Util.getDCsFromArgs sampleRegionsAndDCs)
           Util.getMinFromArgs Util.getMaxFromArgs
           (sampleContext
              ["my-deployment-123.now.sh"; "sfo"; "bru"; "0"; "1"])
           (sampleOptions
              ["my-deployment-123.now.sh"; "sfo"; "bru"; "0"; "1"]));
    [sample_invocation|evaluated].
Defined.

(** C9 fails as stated: with "ls" in the identifier position two
    positional arguments end in the deprecation error, not in the usage
    error. *)
Lemma few_arguments_with_ls :
  let w := Util.world (sampleRemote "NPM" Patched ∅ (λ _, ∅)) in
  let ctx := sampleContext ["ls"] in
  Util.getArgs (drop 2 (argv ctx)) = inr (sampleOptions ["ls"])
  ∧ (length (argv_ (sampleOptions ["ls"])) < 3)%nat
  ∧ run w (command ctx)
    = ([Ev (Print (OutputError DeprecatedLs)); Ev NowClose], Returned 1)
  ∧ existsb is_usage_error (trace w (command ctx)) = false.
Proof. repeat split; evaluated. Qed.

Lemma static_rejected_after_fetch_witness :
  let w := Util.world (sampleRemote "STATIC" Patched ∅ (λ _, ∅)) in
  let ctx := sampleContext ["my-deployment-123.now.sh"; "all"; "auto"; "auto"] in
  run w (command ctx)
  = ([Ev (GetDeploymentByIdOrHost "acme" "my-deployment-123.now.sh");
      Ev (Print (OutputLogFetched "my-deployment-123.now.sh"));
      Ev (Print (OutputError StaticDeployment));
      Ev NowClose], Returned 1)
  ∧ existsb is_patch (trace w (command ctx)) = false
  ∧ length (List.filter is_network (trace w (command ctx))) = 1%nat.
Proof.
  apply (static_rejected_after_fetch Util.getArgs Util.getContextName
           (Util.getDCsFromArgs sampleRegionsAndDCs)
           Util.getMinFromArgs Util.getMaxFromArgs
           (sampleContext
              ["my-deployment-123.now.sh"; "all"; "auto"; "auto"])
           (sampleOptions
              ["my-deployment-123.now.sh"; "all"; "auto"; "auto"])
           _ (sampleDeployment "STATIC" ∅));
    [sample_invocation|sample_invocation|evaluated|evaluated].
Defined.

(** C2 fails as stated: the type of the deployment is only known from the
    fetch, so the rejection of a static deployment comes after a network
    call. *)
Lemma static_rejection_needs_the_fetch :
  let w := Util.world (sampleRemote "STATIC" Patched ∅ (λ _, ∅)) in
  let args := ["my-deployment-123.now.sh"; "all"; "auto"; "auto"] in
  Util.getDCsFromArgs sampleRegionsAndDCs ("scale" :: args) = DCs ["all"]
  ∧ Util.getMinFromArgs ("scale" :: args) = Min Auto
  ∧ Util.getMaxFromArgs ("scale" :: args) = Max Auto
  ∧ existsb is_network (trace w (command (sampleContext args))) = true
  ∧ List.filter is_network (trace w (command (sampleContext args)))
    = [Ev (GetDeploymentByIdOrHost "acme" "my-deployment-123.now.sh")]
  ∧ outcome w (command (sampleContext args)) = Returned 1.
Proof. repeat split; evaluated. Qed.

Lemma scale_spec_is_uniform_witness :
  let w := Util.world (sampleRemote "NPM" Patched ∅ (λ _, ∅)) in
  let ctx := sampleContext ["my-deployment-123.now.sh"; "sfo"; "bru"] in
  dom (scaleArgs ["sfo"; "bru"] (Count 0) (Count 1))
  = list_to_set ["sfo"; "bru"]
  ∧ (∀ dc, dc ∈ ["sfo"; "bru"] →
           scaleArgs ["sfo"; "bru"] (Count 0) (Count 1) !! dc
           = Some {| range_min := Count 0; range_max := Count 1 |})
  ∧ (∀ dc range,
       scaleArgs ["sfo"; "bru"] (Count 0) (Count 1) !! dc = Some range →
       range = {| range_min := Count 0; range_max := Count 1 |})
  ∧ List.filter is_patch (trace w (command ctx))
    = [Ev (PatchDeploymentScale (uid (sampleDeployment "NPM" ∅))
             (scaleArgs ["sfo"; "bru"] (Count 0) (Count 1))
             (url (sampleDeployment "NPM" ∅)))].
Proof.
  apply (scale_spec_is_uniform Util.getArgs Util.getContextName
           (Util.getDCsFromArgs sampleRegionsAndDCs)
           Util.getMinFromArgs Util.getMaxFromArgs
           (sampleContext ["my-deployment-123.now.sh"; "sfo"; "bru"])
           (sampleOptions ["my-deployment-123.now.sh"; "sfo"; "bru"]));
    [sample_invocation|sample_invocation|evaluated|sample_invocation].
Defined.

Lemma verification_gate_witness :
  let w := Util.world (sampleRemote "NPM" Patched ∅ (λ _, ∅)) in
  let ctx := sampleContext ["my-deployment-123.now.sh"; "sfo"] in
  let argv := sampleOptions ["my-deployment-123.now.sh"; "sfo"] in
  (existsb is_verify (trace w (command ctx)) = true
   ↔ opt_no_verify argv = false
     ∧ ∃ updatedDeployment,
         Scale.refetches Util.getContextName w ctx
           (sampleDeployment "NPM" ∅) updatedDeployment
         ∧ (type updatedDeployment = "NPM"
            ∨ type updatedDeployment = "DOCKER"))
  ∧ (∀ updatedDeployment,
       opt_no_verify argv = false →
       Scale.refetches Util.getContextName w ctx
         (sampleDeployment "NPM" ∅) updatedDeployment →
       type updatedDeployment ≠ "NPM" →
       type updatedDeployment ≠ "DOCKER" →
       outcome w (command ctx) = Returned 0
       ∧ existsb is_verify (trace w (command ctx)) = false).
Proof.
  apply (verification_gate Util.getArgs Util.getContextName
           (Util.getDCsFromArgs sampleRegionsAndDCs)
           Util.getMinFromArgs Util.getMaxFromArgs
           (sampleContext ["my-deployment-123.now.sh"; "sfo"])
           (sampleOptions ["my-deployment-123.now.sh"; "sfo"])
           _ _ ["sfo"] (Count 0) (Count 1));
    [sample_invocation|sample_invocation|evaluated|sample_invocation
    |evaluated].
Defined.

Lemma all_excludes_other_targets_witness :
  let w := Util.world (sampleRemote "NPM" Patched ∅ (λ _, ∅)) in
  let ctx := sampleContext ["my-deployment-123.now.sh"; "all"; "sfo"] in
  let argv := sampleOptions ["my-deployment-123.now.sh"; "all"; "sfo"] in
  Util.getDCsFromArgs sampleRegionsAndDCs (argv_ argv) = InvalidAllForScale
  ∧ outcome w (command ctx) = Returned 1
  ∧ existsb is_network (trace w (command ctx)) = false
  ∧ (argv_ argv !! 1%nat ≠ Some "ls" →
     (3 ≤ length (argv_ argv) ≤ 5)%nat →
     trace w (command ctx)
     = [Ev (Print (OutputError AllAlongsideOthers)); Ev NowClose]).
Proof.
  apply (all_excludes_other_targets Util.getArgs Util.getContextName
           sampleRegionsAndDCs Util.getMinFromArgs Util.getMaxFromArgs
           (sampleContext ["my-deployment-123.now.sh"; "all"; "sfo"])
           (sampleOptions ["my-deployment-123.now.sh"; "all"; "sfo"]));
    [sample_invocation|evaluated|].
  exists "sfo". split; evaluated.
Defined.


Lemma verification_timeout_is_reported_witness :
  let r :=
    sampleRemote "NPM" Patched {["sfo1" := rule (Count 0) (Count 1)]}
      (λ _, ∅) in
  let w := Util.world r in
  let ctx := sampleContext ["my-deployment-123.now.sh"; "sfo"] in
  let deployment := sampleDeployment "NPM" ∅ in
  let updatedDeployment :=
    sampleDeployment "NPM" {["sfo1" := rule (Count 0) (Count 1)]} in
  on_waitVerifyDeploymentScale w (uid deployment) (scale updatedDeployment)
  = Resolved (VerifyScaleTimeout (Util.verify_timeout r))
  ∧ outcome w (command ctx) = Returned 1
  ∧ ∃ before,
      trace w (command ctx)
      = (before
         ++ [Ev (Print (OutputError
                          (VerificationTimedOut (Util.verify_timeout r))));
             Ev NowClose])%list.
Proof.
  apply (verification_timeout_is_reported Util.getArgs Util.getContextName
           (Util.getDCsFromArgs sampleRegionsAndDCs)
           Util.getMinFromArgs Util.getMaxFromArgs
           (sampleContext ["my-deployment-123.now.sh"; "sfo"])
           (sampleOptions ["my-deployment-123.now.sh"; "sfo"])
           _ _ _ ["sfo"] (Count 0) (Count 1));
    [sample_invocation|sample_invocation|evaluated|sample_invocation
    |evaluated|evaluated|evaluated|by left|intros n _; evaluated].
Defined.

Lemma poller_checks_updated_scale_witness :
  let r :=
    sampleRemote "DOCKER" Patched {["sfo1" := rule (Count 0) Auto]}
      (λ k, if decide (k = 2%nat) then {["sfo1" := reported 0 1]} else ∅) in
  let w := Util.world r in
  let ctx := sampleContext ["my-deployment-123.now.sh"; "sfo"; "0"; "auto"] in
  let deployment := sampleDeployment "DOCKER" ∅ in
  let updatedDeployment :=
    sampleDeployment "DOCKER" {["sfo1" := rule (Count 0) Auto]} in
  List.filter is_verify (trace w (command ctx))
  = [Ev (WaitVerifyDeploymentScale (uid deployment)
           (scale updatedDeployment))]
  ∧ (existsb is_success (trace w (command ctx)) = true
     ↔ ∃ n, (N.of_nat n * Npos (Util.poll_interval r)
             ≤ Util.verify_timeout r)%N
            ∧ ∀ dc range,
                scale updatedDeployment !! dc = Some range →
                ∃ st,
                  Util.remote_snapshots r (uid deployment) n !! dc = Some st
                  ∧ Util.meets (range_min range) (Util.reported_min st)
                  ∧ Util.meets (range_max range) (Util.reported_max st)).
Proof.
  apply (poller_checks_updated_scale Util.getArgs Util.getContextName
           (Util.getDCsFromArgs sampleRegionsAndDCs)
           Util.getMinFromArgs Util.getMaxFromArgs
           (sampleContext ["my-deployment-123.now.sh"; "sfo"; "0"; "auto"])
           (sampleOptions ["my-deployment-123.now.sh"; "sfo"; "0"; "auto"])
           _ _ _ ["sfo"] (Count 0) Auto);
    [sample_invocation|sample_invocation|evaluated|sample_invocation
    |evaluated|evaluated|evaluated|by right].
Defined.

(** C1 fails as stated: the rules sent for "all" are not what the poller
    is given.  The remote stores them per datacenter, the poller gets the
    stored rules, and the command reports the scale as verified although
    the snapshot has no state for the requested target "all". *)
Lemma poller_is_not_given_the_submitted_spec :
  let stored : DeploymentScaleArgs :=
    {["sfo1" := rule (Count 0) (Count 1);
      "bru1" := rule (Count 0) (Count 1)]} in
  let snapshot : Util.Snapshot :=
    {["sfo1" := reported 0 1; "bru1" := reported 0 1]} in
  let submitted : DeploymentScaleArgs :=
    {["all" := rule (Count 0) (Count 1)]} in
  let r := sampleRemote "NPM" Patched stored (λ _, snapshot) in
  let w := Util.world r in
  let ctx := sampleContext ["my-deployment-123.now.sh"; "all"] in
  List.filter is_patch (trace w (command ctx))
  = [Ev (PatchDeploymentScale "dpl_1" submitted "my-deployment-123.now.sh")]
  ∧ List.filter is_verify (trace w (command ctx))
    = [Ev (WaitVerifyDeploymentScale "dpl_1" stored)]
  ∧ stored ≠ submitted
  ∧ Util.converged submitted snapshot = false
  ∧ existsb is_success (trace w (command ctx)) = true
  ∧ outcome w (command ctx) = Returned 0.
Proof. repeat split; evaluated. Qed.

(** ** Sample runs for the further properties *)

Lemma rejection_comes_from_a_call_witness :
  let w :=
    sampleWorld (Rejected "ECONNRESET") (Resolved Patched)
      (Resolved (sampleDeployment "NPM" ∅)) (Resolved Verified) in
  let ctx := sampleContext ["my-deployment-123.now.sh"; "sfo"] in
  (trace w (command ctx) = [] ∧ "ECONNRESET" = "TypeError"
   ∧ find (λ item, bool_decide (provider item = "sh")) (credentials ctx)
     = None)
  ∨ ∃ ev, last (trace w (command ctx)) = Some ev ∧ rejects w ev "ECONNRESET".
Proof.
  apply (rejection_comes_from_a_call Util.getArgs Util.getContextName
           (Util.getDCsFromArgs sampleRegionsAndDCs)
           Util.getMinFromArgs Util.getMaxFromArgs). evaluated.
Defined.

Lemma client_is_closed_on_return_witness :
  let w :=
    sampleWorld (Resolved DeploymentNotFound) (Resolved Patched)
      (Resolved (sampleDeployment "NPM" ∅)) (Resolved Verified) in
  let ctx := sampleContext ["my-deployment-123.now.sh"; "sfo"] in
  last (trace w (command ctx)) = Some (Ev NowClose)
  ∧ length (List.filter is_close (trace w (command ctx))) = 1%nat.
Proof.
  apply (client_is_closed_on_return Util.getArgs Util.getContextName
           (Util.getDCsFromArgs sampleRegionsAndDCs)
           Util.getMinFromArgs Util.getMaxFromArgs
           (sampleContext ["my-deployment-123.now.sh"; "sfo"])
           (sampleOptions ["my-deployment-123.now.sh"; "sfo"]) _ 1);
    [sample_invocation|evaluated].
Defined.

Lemma client_is_left_open_on_rejection_witness :
  let w :=
    sampleWorld (Resolved (Fetched (sampleDeployment "NPM" ∅)))
      (Rejected "ETIMEDOUT") (Resolved (sampleDeployment "NPM" ∅))
      (Resolved Verified) in
  let ctx := sampleContext ["my-deployment-123.now.sh"; "sfo"] in
  existsb is_close (trace w (command ctx)) = false.
Proof.
  apply (client_is_left_open_on_rejection Util.getArgs Util.getContextName
           (Util.getDCsFromArgs sampleRegionsAndDCs)
           Util.getMinFromArgs Util.getMaxFromArgs
           (sampleContext ["my-deployment-123.now.sh"; "sfo"])
           (sampleOptions ["my-deployment-123.now.sh"; "sfo"]) _
           "ETIMEDOUT");
    [sample_invocation|evaluated].
Defined.

Lemma one_error_per_failure_witness :
  let w :=
    sampleWorld (Resolved (Fetched (sampleDeployment "NPM" ∅)))
      (Resolved (ForbiddenScaleMaxInstances 3))
      (Resolved (sampleDeployment "NPM" ∅)) (Resolved Verified) in
  let ctx := sampleContext ["my-deployment-123.now.sh"; "sfo"; "1"; "5"] in
  (1 = 0 ∧ List.filter is_error (trace w (command ctx)) = [])
  ∨ (1 = 1 ∧ length (List.filter is_error (trace w (command ctx))) = 1%nat).
Proof.
  apply (one_error_per_failure Util.getArgs Util.getContextName
           (Util.getDCsFromArgs sampleRegionsAndDCs)
           Util.getMinFromArgs Util.getMaxFromArgs
           (sampleContext ["my-deployment-123.now.sh"; "sfo"; "1"; "5"])
           (sampleOptions ["my-deployment-123.now.sh"; "sfo"; "1"; "5"]));
    [sample_invocation|evaluated].
Defined.

Lemma network_iff_accepted_witness :
  let w :=
    sampleWorld (Resolved (Fetched (sampleDeployment "NPM" ∅)))
      (Resolved Patched) (Resolved (sampleDeployment "NPM" ∅))
      (Resolved Verified) in
  let ctx := sampleContext ["my-deployment-123.now.sh"; "sfo"] in
  let argv := sampleOptions ["my-deployment-123.now.sh"; "sfo"] in
  (existsb is_network (trace w (command ctx)) = true
   ↔ ∃ dcs min max,
       Scale.accepted (Util.getDCsFromArgs sampleRegionsAndDCs)
         Util.getMinFromArgs Util.getMaxFromArgs argv dcs min max)
  ∧ (existsb is_network (trace w (command ctx)) = true →
     head (List.filter is_network (trace w (command ctx)))
     = Some (Ev (GetDeploymentByIdOrHost (Util.getContextName (sh ctx))
                   (default "" (argv_ argv !! 1%nat))))).
Proof.
  apply (network_iff_accepted Util.getArgs Util.getContextName
           (Util.getDCsFromArgs sampleRegionsAndDCs)
           Util.getMinFromArgs Util.getMaxFromArgs
           (sampleContext ["my-deployment-123.now.sh"; "sfo"])
           (sampleOptions ["my-deployment-123.now.sh"; "sfo"]));
    sample_invocation.
Defined.

Lemma success_iff_witness :
  let w :=
    sampleWorld (Resolved (Fetched (sampleDeployment "NPM" ∅)))
      (Resolved Patched) (Resolved (sampleDeployment "NPM" ∅))
      (Resolved Verified) in
  let ctx := sampleContext ["my-deployment-123.now.sh"; "sfo"] in
  let argv := sampleOptions ["my-deployment-123.now.sh"; "sfo"] in
  outcome w (command ctx) = Returned 0
  ↔ ∃ dcs min max deployment,
      Scale.accepted (Util.getDCsFromArgs sampleRegionsAndDCs)
        Util.getMinFromArgs Util.getMaxFromArgs argv dcs min max
      ∧ Scale.fetches Util.getContextName w ctx argv deployment
      ∧ Scale.scalable deployment
      ∧ Scale.patches w deployment dcs min max
      ∧ (opt_no_verify argv = true
         ∨ ∃ updatedDeployment,
             Scale.refetches Util.getContextName w ctx deployment
               updatedDeployment
             ∧ ((type updatedDeployment ≠ "NPM"
                 ∧ type updatedDeployment ≠ "DOCKER")
                ∨ on_waitVerifyDeploymentScale w (uid deployment)
                    (scale updatedDeployment) = Resolved Verified)).
Proof.
  apply (success_iff Util.getArgs Util.getContextName
           (Util.getDCsFromArgs sampleRegionsAndDCs)
           Util.getMinFromArgs Util.getMaxFromArgs
           (sampleContext ["my-deployment-123.now.sh"; "sfo"])
           (sampleOptions ["my-deployment-123.now.sh"; "sfo"]));
    sample_invocation.
Defined.

Lemma fetch_error_stops_the_command_witness :
  let w :=
    sampleWorld (Resolved (DeploymentPermissionDenied "dpl_1" "zeit"))
      (Resolved Patched) (Resolved (sampleDeployment "NPM" ∅))
      (Resolved Verified) in
  let ctx := sampleContext ["my-deployment-123.now.sh"; "sfo"] in
  run w (command ctx)
  = ([Ev (GetDeploymentByIdOrHost "acme" "my-deployment-123.now.sh");
      Ev (Print (OutputError (NoPermission "dpl_1" "zeit")));
      Ev NowClose], Returned 1).
Proof.
  apply (fetch_error_stops_the_command Util.getArgs Util.getContextName
           (Util.getDCsFromArgs sampleRegionsAndDCs)
           Util.getMinFromArgs Util.getMaxFromArgs
           (sampleContext ["my-deployment-123.now.sh"; "sfo"])
           (sampleOptions ["my-deployment-123.now.sh"; "sfo"])
           _ ["sfo"] (Count 0) (Count 1)
           (DeploymentPermissionDenied "dpl_1" "zeit"));
    [sample_invocation|sample_invocation|evaluated|done].
Defined.

Lemma unscalable_deployment_is_refused_witness :
  let broken :=
    {| uid := "dpl_2"; url := "broken.now.sh"; type := "NPM";
       state := "ERROR"; scale := ∅ |} in
  let w :=
    sampleWorld (Resolved (Fetched broken)) (Resolved Patched)
      (Resolved broken) (Resolved Verified) in
  let ctx := sampleContext ["broken.now.sh"; "sfo"; "1"; "2"] in
  run w (command ctx)
  = ([Ev (GetDeploymentByIdOrHost "acme" "broken.now.sh");
      Ev (Print (OutputLogFetched "broken.now.sh"));
      Ev (Print (OutputError ErrorState));
      Ev NowClose], Returned 1).
Proof.
  apply (unscalable_deployment_is_refused Util.getArgs Util.getContextName
           (Util.getDCsFromArgs sampleRegionsAndDCs)
           Util.getMinFromArgs Util.getMaxFromArgs
           (sampleContext ["broken.now.sh"; "sfo"; "1"; "2"])
           (sampleOptions ["broken.now.sh"; "sfo"; "1"; "2"])
           _ ["sfo"] (Count 1) (Count 2)
           {| uid := "dpl_2"; url := "broken.now.sh"; type := "NPM";
              state := "ERROR"; scale := ∅ |});
    [sample_invocation|sample_invocation|evaluated|by right].
Defined.

Lemma patch_refusal_stops_the_command_witness :
  let w :=
    sampleWorld (Resolved (Fetched (sampleDeployment "DOCKER" ∅)))
      (Resolved (ForbiddenScaleMinInstances 3))
      (Resolved (sampleDeployment "DOCKER" ∅)) (Resolved Verified) in
  let ctx := sampleContext ["my-deployment-123.now.sh"; "sfo"; "5"; "9"] in
  outcome w (command ctx) = Returned 1
  ∧ omap network_call (trace w (command ctx)) = [FetchCall; PatchCall]
  ∧ List.filter is_error (trace w (command ctx))
    = [Ev (Print (OutputError (MinInstancesPlanLimit 3)))].
Proof.
  apply (patch_refusal_stops_the_command Util.getArgs Util.getContextName
           (Util.getDCsFromArgs sampleRegionsAndDCs)
           Util.getMinFromArgs Util.getMaxFromArgs
           (sampleContext ["my-deployment-123.now.sh"; "sfo"; "5"; "9"])
           (sampleOptions ["my-deployment-123.now.sh"; "sfo"; "5"; "9"])
           _ ["sfo"] (Count 5) (Count 9) (sampleDeployment "DOCKER" ∅)
           (ForbiddenScaleMinInstances 3));
    [sample_invocation|sample_invocation|evaluated|sample_invocation
    |evaluated|done].
Defined.

Lemma no_verify_skips_the_second_fetch_witness :
  let w :=
    sampleWorld (Resolved (Fetched (sampleDeployment "NPM" ∅)))
      (Resolved Patched) (Rejected "ECONNRESET") (Rejected "ECONNRESET") in
  let ctx := sampleContext ["my-deployment-123.now.sh"; "sfo"; "-n"] in
  run w (command ctx)
  = ([Ev (GetDeploymentByIdOrHost "acme" "my-deployment-123.now.sh");
      Ev (Print (OutputLogFetched "my-deployment-123.now.sh"));
      Ev (Print (OutputDebug (scaleArgs ["sfo"] (Count 0) (Count 1))));
      Ev (PatchDeploymentScale "dpl_1"
            (scaleArgs ["sfo"] (Count 0) (Count 1))
            "my-deployment-123.now.sh");
      Ev (Print (ConsoleLogSaved ["sfo"] (Count 0) (Count 1)));
      Ev NowClose], Returned 0).
Proof.
  apply (no_verify_skips_the_second_fetch Util.getArgs Util.getContextName
           (Util.getDCsFromArgs sampleRegionsAndDCs)
           Util.getMinFromArgs Util.getMaxFromArgs
           (sampleContext ["my-deployment-123.now.sh"; "sfo"; "-n"])
           {| argv_ := ["scale"; "my-deployment-123.now.sh"; "sfo"];
              opt_help := false; opt_debug := false;
              opt_no_verify := true; opt_verify_timeout := None |}
           _ ["sfo"] (Count 0) (Count 1) (sampleDeployment "NPM" ∅));
    [sample_invocation|sample_invocation|evaluated|sample_invocation
    |evaluated|evaluated].
Defined.

Lemma poll_result_decides_witness :
  let stored : DeploymentScaleArgs :=
    {["sfo1" := rule (Count 0) (Count 1)]} in
  let w :=
    sampleWorld (Resolved (Fetched (sampleDeployment "NPM" ∅)))
      (Resolved Patched) (Resolved (sampleDeployment "NPM" stored))
      (Resolved (VerifyScaleTimeout 300000)) in
  let ctx := sampleContext ["my-deployment-123.now.sh"; "sfo"] in
  List.filter is_network (trace w (command ctx))
  = [Ev (GetDeploymentByIdOrHost "acme" "my-deployment-123.now.sh");
     Ev (PatchDeploymentScale "dpl_1"
           (scaleArgs ["sfo"] (Count 0) (Count 1))
           "my-deployment-123.now.sh");
     Ev (GetDeploymentByIdOrThrow "acme" "dpl_1");
     Ev (WaitVerifyDeploymentScale "dpl_1" stored)]
  ∧ outcome w (command ctx) = Returned 1.
Proof.
  intros stored w ctx.
  exact (poll_result_decides Util.getArgs Util.getContextName
           (Util.getDCsFromArgs sampleRegionsAndDCs)
           Util.getMinFromArgs Util.getMaxFromArgs
           (sampleContext ["my-deployment-123.now.sh"; "sfo"])
           (sampleOptions ["my-deployment-123.now.sh"; "sfo"])
           w (sampleDeployment "NPM" ∅)
           (sampleDeployment "NPM" {["sfo1" := rule (Count 0) (Count 1)]})
           ["sfo"] (Count 0) (Count 1)
           ltac:(sample_invocation) ltac:(sample_invocation)
           ltac:(evaluated) ltac:(sample_invocation) ltac:(evaluated)
           ltac:(evaluated) ltac:(evaluated) ltac:(by left)).
Defined.

Lemma verify_timeout_changes_nothing_witness :
  let w :=
    sampleWorld (Resolved (Fetched (sampleDeployment "NPM" ∅)))
      (Resolved Patched) (Resolved (sampleDeployment "NPM" ∅))
      (Resolved (VerifyScaleTimeout 300000)) in
  run w (command (sampleContext ["my-deployment-123.now.sh"; "sfo"]))
  = run w (command (sampleContext
                      ["my-deployment-123.now.sh";
                       "--verify-timeout"; "10"; "sfo"])).
Proof.
  apply (verify_timeout_changes_nothing Util.getArgs Util.getContextName
           (Util.getDCsFromArgs sampleRegionsAndDCs)
           Util.getMinFromArgs Util.getMaxFromArgs
           (sampleContext ["my-deployment-123.now.sh"; "sfo"])
           (sampleContext
              ["my-deployment-123.now.sh"; "--verify-timeout"; "10"; "sfo"])
           (sampleOptions ["my-deployment-123.now.sh"; "sfo"])
           {| argv_ := ["scale"; "my-deployment-123.now.sh"; "sfo"];
              opt_help := false; opt_debug := false;
              opt_no_verify := false; opt_verify_timeout := Some 10%N |});
    [sample_invocation|sample_invocation|evaluated|evaluated|evaluated
    |evaluated|evaluated|evaluated].
Defined.

Lemma scaleArgs_set_of_targets_witness :
  scaleArgs ["sfo"; "bru"; "sfo"] (Count 0) Auto !! "sfo"
  = scaleArgs ["bru"; "sfo"] (Count 0) Auto !! "sfo".
Proof.
  apply (scaleArgs_set_of_targets ["sfo"; "bru"; "sfo"] ["bru"; "sfo"]).
  intros dc. rewrite !list_elem_of_In. simpl. tauto.
Defined.

Lemma second_fetch_rejection_is_not_caught_witness :
  let w :=
    sampleWorld (Resolved (Fetched (sampleDeployment "NPM" ∅)))
      (Resolved Patched) (Rejected "ECONNRESET") (Resolved Verified) in
  let ctx := sampleContext ["my-deployment-123.now.sh"; "sfo"] in
  run w (command ctx)
  = ([Ev (GetDeploymentByIdOrHost "acme" "my-deployment-123.now.sh");
      Ev (Print (OutputLogFetched "my-deployment-123.now.sh"));
      Ev (Print (OutputDebug (scaleArgs ["sfo"] (Count 0) (Count 1))));
      Ev (PatchDeploymentScale "dpl_1"
            (scaleArgs ["sfo"] (Count 0) (Count 1))
            "my-deployment-123.now.sh");
      Ev (Print (ConsoleLogSaved ["sfo"] (Count 0) (Count 1)));
      Ev (GetDeploymentByIdOrThrow "acme" "dpl_1")], Thrown "ECONNRESET").
Proof.
  apply (second_fetch_rejection_is_not_caught Util.getArgs Util.getContextName
           (Util.getDCsFromArgs sampleRegionsAndDCs)
           Util.getMinFromArgs Util.getMaxFromArgs
           (sampleContext ["my-deployment-123.now.sh"; "sfo"])
           (sampleOptions ["my-deployment-123.now.sh"; "sfo"])
           _ ["sfo"] (Count 0) (Count 1) (sampleDeployment "NPM" ∅));
    [sample_invocation|sample_invocation|evaluated|sample_invocation
    |evaluated|evaluated|evaluated].
Defined.
